(** * Conversational RAG pipeline: a shallow embedding and its properties

    The development follows the Python sources of the repository:
    - [app/rag_chain.py]   : prompt assembly, answer parsing, references,
                             suggestions and the [answer_question] orchestrator;
    - [app/document_processor.py] : the sentence/token chunker;
    - [app/vector_store.py]: embedding calls and the vector index adapter;
    - [app/database.py]    : the conversation store;
    - [app/config.py], [app/models.py] : constants and records.

    Python [str] values are modelled by [string]; a character is a code point
    below 256.  Python [int] is [Z] (or [nat] for counters that only grow from
    zero).  External collaborators (OpenAI, Chroma, the tokenizer, the clock,
    the iteration order of a [set]) are parameters. *)

From Stdlib Require Import ZArith Lia Bool Ascii.
From Stdlib Require PrimFloat.
From stdpp Require Import base tactics option list strings pretty gmap.

Local Open Scope Z_scope.

(** ** Python built-ins used by the sources *)

Module Py.

(** [str.isspace] on one character, for code points below 256:
    TAB..CR, FS..US, SPACE, NEL and NBSP. *)
Definition isspace (c : ascii) : bool :=
  let n := N_of_ascii c in
  ((9 <=? n) && (n <=? 13) || (28 <=? n) && (n <=? 32)
   || (n =? 133) || (n =? 160))%N.

(** [s.lstrip()], [s.rstrip()], [s.strip()]. *)
Fixpoint lstrip (s : string) : string :=
  match s with
  | "" => ""
  | String c s' => if isspace c then lstrip s' else s
  end.

Fixpoint rstrip (s : string) : string :=
  match s with
  | "" => ""
  | String c s' =>
      match rstrip s' with
      | "" => if isspace c then "" else String c ""
      | r => String c r
      end
  end.

Definition strip (s : string) : string := rstrip (lstrip s).

(** [s.split(sep)] for a one-character separator: never empty. *)
Fixpoint split (sep : ascii) (s : string) : list string :=
  match s with
  | "" => [""]
  | String c s' =>
      if bool_decide (c = sep) then "" :: split sep s'
      else match split sep s' with
           | h :: t => String c h :: t
           | [] => [String c ""]
           end
  end.

(** [s.split()]: maximal runs of non-space characters. *)
Fixpoint split_ws_go (cur : option string) (s : string) : list string :=
  match s with
  | "" => option_list (String.rev <$> cur)
  | String c s' =>
      if isspace c
      then option_list (String.rev <$> cur) ++ split_ws_go None s'
      else split_ws_go (Some (String c (default "" cur))) s'
  end.
Definition split_ws : string → list string := split_ws_go None.

(** [s.startswith(p)]. *)
Definition startswith (s p : string) : bool := String.prefix p s.

(** [s[n:]] and [s[:n]] for a literal [n >= 0]. *)
Fixpoint str_drop (n : nat) (s : string) : string :=
  match n, s with
  | O, _ => s
  | S _, "" => ""
  | S n', String _ s' => str_drop n' s'
  end.

Fixpoint str_take (n : nat) (s : string) : string :=
  match n, s with
  | O, _ => ""
  | S _, "" => ""
  | S n', String c s' => String c (str_take n' s')
  end.

(** [p in s] on strings. *)
Fixpoint contains (p s : string) : bool :=
  String.prefix p s ||
  match s with
  | "" => false
  | String _ s' => contains p s'
  end.

(** [s.lower()] on code points below 256: A..Z and the Latin-1 capitals
    (0xC0..0xDE except the multiplication sign) move up by 32. *)
Definition lower_char (c : ascii) : ascii :=
  let n := N_of_ascii c in
  if ((65 <=? n) && (n <=? 90)
      || (192 <=? n) && (n <=? 222) && negb (n =? 215))%N
  then ascii_of_N (n + 32) else c.

Fixpoint lower (s : string) : string :=
  match s with
  | "" => ""
  | String c s' => String (lower_char c) (lower s')
  end.

(** [l[start:]] for any integer [start]: a negative start counts from the
    end and is clamped at the front.  In particular [l[-0:]] is [l]. *)
Definition slice_from {A} (start : Z) (l : list A) : list A :=
  let len := Z.of_nat (length l) in
  let start' := if start <? 0 then Z.max 0 (len + start) else start in
  drop (Z.to_nat start') l.

(** Truthiness of a string. *)
Definition truthy (s : string) : bool := negb (bool_decide (s = "")).

(** The newline character and [sep.join(parts)] for [sep = NL]. *)
Definition NL : string := String (ascii_of_nat 10) "".

Fixpoint join (sep : string) (parts : list string) : string :=
  match parts with
  | [] => ""
  | [p] => p
  | p :: ps => p +:+ sep +:+ join sep ps
  end.

(** Exceptions: a computation returns a value or raises, and [str(e)] is
    what the handlers of this program look at. *)
Inductive result (A : Type) : Type :=
| Ok (a : A)
| Raise (msg : string).
Global Arguments Ok {A} a.
Global Arguments Raise {A} msg.

End Py.

(** ** [app/rag_chain.py]: [_parse_llm_response] *)

Module Parser.
Import Py.

(** [current_section] is [None], ["answer"] or ["reasoning"]. *)
Inductive section_name := NoSection | InAnswer | InReasoning.

Global Instance section_name_eq_dec : EqDecision section_name.
Proof. solve_decision. Defined.

Record scan_state := ScanState {
  answer : string;
  reasoning : string;
  current_section : section_name
}.

Definition scan_init : scan_state := ScanState "" "" NoSection.

(** The body of [for line in lines]. *)
Definition scan_line (st : scan_state) (line : string) : scan_state :=
  let line := strip line in
  if startswith line "ANSWER:" then
    ScanState (strip (str_drop 7 line)) (reasoning st) InAnswer
  else if startswith line "REASONING:" then
    ScanState (answer st) (strip (str_drop 10 line)) InReasoning
  else if bool_decide (current_section st = InAnswer) && truthy line then
    ScanState (answer st +:+ " " +:+ line) (reasoning st) (current_section st)
  else if bool_decide (current_section st = InReasoning) && truthy line then
    ScanState (answer st) (reasoning st +:+ " " +:+ line) (current_section st)
  else st.

Definition scan (response : string) : scan_state :=
  fold_left scan_line (split "010" response) scan_init.

Definition _parse_llm_response (response : string) : string * string :=
  let st := scan response in
  let '(answer, reasoning) :=
    if negb (truthy (answer st)) && negb (truthy (reasoning st)) then
      (response, "Answer derived from document analysis.")
    else if negb (truthy (reasoning st)) then
      (answer st, "Based on the provided document context.")
    else (answer st, reasoning st) in
  (strip answer, strip reasoning).

End Parser.

(** ** [app/config.py] and [app/models.py] *)

Module Models.

(** Python [float] is IEEE binary64. *)
Abbreviation float := PrimFloat.float.

(** [datetime] values, as ticks of the clock. *)
Definition datetime := Z.

(** [Config]: every integer comes from the environment. *)
Record Config := {
  CHUNK_SIZE : Z;
  CHUNK_OVERLAP : Z;
  TOP_K_DEFAULT : Z;
  MAX_HISTORY_TURNS : Z;
  EMBEDDING_MODEL : string;
  LLM_MODEL : string
}.

(** The values used when the environment sets nothing. *)
Definition default_config : Config := {|
  CHUNK_SIZE := 400;
  CHUNK_OVERLAP := 50;
  TOP_K_DEFAULT := 4;
  MAX_HISTORY_TURNS := 5;
  EMBEDDING_MODEL := "text-embedding-3-small";
  LLM_MODEL := "gpt-3.5-turbo"
|}.

(** [DocumentChunk]; its [metadata] field is never set and keeps the
    default, the empty dictionary: it is left out. *)
Record DocumentChunk := {
  document_id : string;
  filename : string;
  chunk_id : string;
  chunk_text : string;
  page_number : option Z;
  upload_timestamp : datetime
}.

(** [Reference]; the field [chunk_id] is [ref_chunk_id] here. *)
Record Reference := {
  document : string;
  page : option Z;
  ref_chunk_id : string;
  content_snippet : string;
  relevance_score : float
}.

Record AnswerResponse := {
  answer : string;
  reasoning : string;
  references : list Reference;
  suggestions : list string;
  conversation_id : string
}.

(** [ConversationTurn]; the fields [answer] and [references] are
    [turn_answer] and [turn_references] here. *)
Record ConversationTurn := {
  question : string;
  turn_answer : string;
  turn_references : list Reference;
  timestamp : datetime
}.

(** The metadata dictionary stored with a vector.  The only writer is
    [add_chunks], which stores strings under ['document_id'], ['filename'],
    ['upload_timestamp'] and an integer under ['page_number']; a key may be
    absent. *)
Record Metadata := {
  md_document_id : option string;
  md_filename : option string;
  md_page_number : option Z;
  md_upload_timestamp : option string
}.

(** One retrieved tuple [(chunk_id, content, metadata, score)]. *)
Abbreviation Retrieved := (string * string * Metadata * float)%type.

End Models.

(** ** [app/database.py]: the conversation store *)

Module Database.
Import Py Models.

(** A document of the [conversations] collection. *)
Record UserHistory := {
  user_id : string;
  conversations : list ConversationTurn;
  last_updated : datetime
}.

(** The collection, in insertion order. *)
Definition Store := list UserHistory.

(** [find_one({"user_id": uid})]: the first matching document. *)
Fixpoint find_one (uid : string) (s : Store) : option UserHistory :=
  match s with
  | [] => None
  | d :: s' => if bool_decide (user_id d = uid) then Some d else find_one uid s'
  end.

(** [update_one({"user_id": uid}, {"$push": {"conversations": turn},
    "$set": {"last_updated": now}}, upsert=True)]: the first matching
    document gets the turn pushed at the end of its array; without a match a
    new document holding just this turn is inserted. *)
Fixpoint update_one_push (uid : string) (turn : ConversationTurn)
    (now : datetime) (s : Store) : Store :=
  match s with
  | [] => [ {| user_id := uid; conversations := [turn]; last_updated := now |} ]
  | d :: s' =>
      if bool_decide (user_id d = uid)
      then {| user_id := user_id d;
              conversations := conversations d ++ [turn];
              last_updated := now |} :: s'
      else d :: update_one_push uid turn now s'
  end.

(** [update_one({"user_id": uid}, {"$set": {"conversations": turns,
    "last_updated": now}}, upsert=True)]: overwrite the whole array.  No
    function of the repository issues this command; it is here to express
    the read-modify-write alternative that the push is compared with. *)
Fixpoint update_one_set (uid : string) (turns : list ConversationTurn)
    (now : datetime) (s : Store) : Store :=
  match s with
  | [] => [ {| user_id := uid; conversations := turns; last_updated := now |} ]
  | d :: s' =>
      if bool_decide (user_id d = uid)
      then {| user_id := user_id d; conversations := turns;
              last_updated := now |} :: s'
      else d :: update_one_set uid turns now s'
  end.

(** A store command, as it goes over the wire. *)
Inductive command :=
| CmdFindOne (uid : string)
| CmdPush (uid : string) (turn : ConversationTurn) (now : datetime)
| CmdSet (uid : string) (turns : list ConversationTurn) (now : datetime).

(** Code that talks to the store: each node is one command sent to the
    server, and the continuation is the client code that runs on its
    reply. *)
Inductive db (A : Type) : Type :=
| Ret (a : A)
| FindOne (uid : string) (k : option UserHistory → db A)
| UpdatePush (uid : string) (turn : ConversationTurn) (now : datetime) (k : db A)
| UpdateSet (uid : string) (turns : list ConversationTurn) (now : datetime) (k : db A).
Global Arguments Ret {A} a.
Global Arguments FindOne {A} uid k.
Global Arguments UpdatePush {A} uid turn now k.
Global Arguments UpdateSet {A} uid turns now k.

Fixpoint bind {A B} (m : db A) (f : A → db B) : db B :=
  match m with
  | Ret a => f a
  | FindOne uid k => FindOne uid (λ r, bind (k r) f)
  | UpdatePush uid turn now k => UpdatePush uid turn now (bind k f)
  | UpdateSet uid turns now k => UpdateSet uid turns now (bind k f)
  end.

Global Instance db_ret : MRet db := @Ret.
Global Instance db_bind : MBind db := λ A B f m, bind m f.

(** Sequential execution: the reply, the final store and the commands
    issued, in order. *)
Fixpoint run {A} (m : db A) (s : Store) : A * Store * list command :=
  match m with
  | Ret a => (a, s, [])
  | FindOne uid k =>
      let '(a, s', log) := run (k (find_one uid s)) s in
      (a, s', CmdFindOne uid :: log)
  | UpdatePush uid turn now k =>
      let '(a, s', log) := run k (update_one_push uid turn now s) in
      (a, s', CmdPush uid turn now :: log)
  | UpdateSet uid turns now k =>
      let '(a, s', log) := run k (update_one_set uid turns now s) in
      (a, s', CmdSet uid turns now :: log)
  end.

(** The document an upsert inserts when its filter matches nothing: the
    equality of the filter, then the update applied to it. *)
Definition upserted (uid : string) (turns : list ConversationTurn)
    (now : datetime) : UserHistory :=
  {| user_id := uid; conversations := turns; last_updated := now |}.

(** A client of the shared store: running its code, or inside an upsert
    whose filter matched no document and that has yet to insert one. *)
Inductive client (A : Type) : Type :=
| Running (m : db A)
| Inserting (d : UserHistory) (k : db A).
Global Arguments Running {A} m.
Global Arguments Inserting {A} d k.

(** One step of a client against the shared store.  The server runs a
    [find_one], and the update of a document it has matched, as one step.
    An upsert that matches nothing takes two: the look-up that comes back
    empty, then the insert of a new document.  Nothing makes the server look
    again before it inserts: [MongoDB.__init__] creates no unique index on
    [user_id]. *)
Definition step {A} (c : client A) (s : Store) : client A * Store :=
  match c with
  | Running (Ret a) => (Running (Ret a), s)
  | Running (FindOne uid k) => (Running (k (find_one uid s)), s)
  | Running (UpdatePush uid turn now k) =>
      match find_one uid s with
      | Some _ => (Running k, update_one_push uid turn now s)
      | None => (Inserting (upserted uid [turn] now) k, s)
      end
  | Running (UpdateSet uid turns now k) =>
      match find_one uid s with
      | Some _ => (Running k, update_one_set uid turns now s)
      | None => (Inserting (upserted uid turns now) k, s)
      end
  | Inserting d k => (Running k, s ++ [d])
  end.

(** A client left alone with the store runs to its end. *)
Definition finish {A} (c : client A) (s : Store) : Store :=
  match c with
  | Running m => (run m s).1.2
  | Inserting d k => (run k (s ++ [d])).1.2
  end.

(** Two clients running concurrently against one store.  The schedule says
    which client takes its next step ([true]: the first); when the schedule
    is used up the first client is run to its end, then the second. *)
Fixpoint interleave {A B} (sched : list bool) (c1 : client A) (c2 : client B)
    (s : Store) : Store :=
  match sched with
  | [] => finish c2 (finish c1 s)
  | true :: sched' =>
      let '(c1', s') := step c1 s in interleave sched' c1' c2 s'
  | false :: sched' =>
      let '(c2', s') := step c2 s in interleave sched' c1 c2' s'
  end.

Section WithConfig.
Variable config : Config.

(** [get_conversation_history(user_id, limit=None)]. *)
Definition get_conversation_history (uid : string) (limit : option Z)
    : db (list ConversationTurn) :=
  let limit := default (MAX_HISTORY_TURNS config) limit in
  FindOne uid (λ history,
    match history with
    | None => Ret []
    | Some h => Ret (slice_from (- limit) (conversations h))
    end).
End WithConfig.

(** [store_conversation_turn(user_id, turn)]; [now] is what
    [datetime.utcnow()] returns when the update document is built. *)
Definition store_conversation_turn (uid : string) (turn : ConversationTurn)
    (now : datetime) : db string :=
  UpdatePush uid turn now (Ret uid).

(** The alternative the push is compared with: read the full history,
    append in memory, write the full history back. *)
Definition read_modify_write_turn (uid : string) (turn : ConversationTurn)
    (now : datetime) : db string :=
  FindOne uid (λ history,
    let turns := from_option conversations [] history in
    UpdateSet uid (turns ++ [turn]) now (Ret uid)).

(** Everything stored for a user: the array of the first matching document. *)
Definition stored_history (uid : string) (s : Store) : list ConversationTurn :=
  from_option conversations [] (find_one uid s).

End Database.

(** A [for] loop that appends one element per iteration to a list that
    starts empty. *)
Definition collect {A B} (f : A → B) (l : list A) : list B :=
  fold_left (λ acc x, acc ++ [f x]) l [].

(** ** [app/vector_store.py] *)

Module VectorStore.
Import Py Models.

(** The keyword arguments of one [collection.add] call. *)
Record AddRequest := {
  embeddings : list (list float);
  documents : list string;
  metadatas : list Metadata;
  ids : list string
}.

(** The services behind the adapter: the OpenAI embedding endpoint and the
    Chroma collection ([collection] is its state). *)
Record Backend := {
  collection : Type;
  (** [openai.embeddings.create(model=, input=).data[0].embedding] *)
  embeddings_create : string → string → result (list float);
  (** [collection.add(...)] *)
  collection_add : AddRequest → collection → result collection;
  (** [collection.query(query_embeddings=[q], n_results=k, include=...)]:
      one row [(id, document, metadata, distance)] per hit. *)
  collection_query : collection → list float → Z → list (string * string * Metadata * float);
  (** [datetime.isoformat] *)
  isoformat : datetime → string
}.

Section WithBackend.
Variable config : Config.
Variable backend : Backend.

(** [get_embedding]: the handler prints and returns [[]]. *)
Definition get_embedding (text : string) : list float :=
  match embeddings_create backend (EMBEDDING_MODEL config) text with
  | Ok embedding => embedding
  | Raise _ => []
  end.

(** The request [add_chunks] builds for [collection.add]. *)
Definition add_chunks_request (chunks : list DocumentChunk) : AddRequest :=
  let texts := chunk_text <$> chunks in
  let chunk_ids := chunk_id <$> chunks in
  let embeddings := collect get_embedding texts in
  let metadatas :=
    collect (λ chunk, {|
      md_document_id := Some (document_id chunk);
      md_filename := Some (filename chunk);
      md_page_number := Some (default 0 (page_number chunk));
      md_upload_timestamp := Some (isoformat backend (upload_timestamp chunk))
    |}) chunks in
  {| embeddings := embeddings; documents := texts;
     metadatas := metadatas; ids := chunk_ids |}.

(** [add_chunks] *)
Definition add_chunks (chunks : list DocumentChunk)
    (coll : collection backend) : result (collection backend) :=
  collection_add backend (add_chunks_request chunks) coll.

(** [similarity_search] *)
Definition similarity_search (coll : collection backend) (query : string)
    (top_k : Z) : list Retrieved :=
  let query_embedding := get_embedding query in
  match query_embedding with
  | [] => []
  | _ =>
      let results := collection_query backend coll query_embedding top_k in
      collect (λ '(chunk_id, document, metadata, distance),
                 (chunk_id, document, metadata, PrimFloat.sub PrimFloat.one distance))
              results
  end.
End WithBackend.

End VectorStore.

(** ** [app/rag_chain.py] *)

Module RagChain.
Import Py Models Database VectorStore.

(** What the orchestrator needs besides the two stores. *)
Record Env := {
  (** [openai.chat.completions.create(model=, messages=[system, user],
      max_tokens=, temperature=0.1).choices[0].message.content], which may
      be [None]. *)
  chat_completions_create : string → string → string → Z → result (option string);
  (** the built-in [round(x, ndigits)] *)
  round_ndigits : float → Z → float;
  (** the order in which a [set] of strings is iterated *)
  set_order : gset string → list string;
  (** [datetime.utcnow()], by the number of earlier calls in the request *)
  utcnow : nat → datetime
}.

Definition instructions : string :=
"
## Instructions:
1. Answer the question based ONLY on the provided document context
2. If the answer cannot be found in the documents, say so clearly
3. Cite specific documents and pages when possible
4. Provide reasoning for how you arrived at your answer
5. Be concise but comprehensive
6. Consider the conversation history for context

Please provide your answer in the following format:
ANSWER: [Your detailed answer here]
REASONING: [Explain how you derived this answer from the documents]
".

(** [_build_context_prompt] *)
Definition _build_context_prompt (question : string)
    (history : list ConversationTurn) (retrieved_chunks : list Retrieved) : string :=
  let prompt_parts :=
    ["You are a helpful assistant that answers questions based on provided documents."] in
  let prompt_parts :=
    match history with
    | [] => prompt_parts
    | _ =>
        fold_left (λ parts turn,
                     parts ++ ["Q: " +:+ Models.question turn;
                               "A: " +:+ turn_answer turn])
          (slice_from (-3) history)
          (prompt_parts ++ [NL +:+ "## Previous Conversation:"])
    end in
  let prompt_parts :=
    match retrieved_chunks with
    | [] => prompt_parts
    | _ =>
        fold_left (λ parts '(i, (chunk_id, content, metadata, score)),
                     let filename := default "Unknown" (md_filename metadata) in
                     let page_num := from_option pretty "N/A" (md_page_number metadata) in
                     parts ++ [NL +:+ "[Document " +:+ pretty (i + 1)%nat +:+ ": "
                                 +:+ filename +:+ ", Page " +:+ page_num +:+ "]";
                               content])
          (imap pair retrieved_chunks)
          (prompt_parts ++ [NL +:+ "## Document Context:"])
    end in
  let prompt_parts :=
    prompt_parts ++ [NL +:+ "## Current Question:" +:+ NL +:+ question] in
  let prompt_parts := prompt_parts ++ [instructions] in
  join NL prompt_parts.

Section WithEnv.
Variable config : Config.
Variable backend : Backend.
Variable env : Env.

(** [_generate_suggestions] *)
Definition _generate_suggestions (question answer : string)
    (references : list Reference) : list string :=
  let topics : gset string :=
    fold_left (λ topics ref,
                 let words := split_ws (lower (content_snippet ref)) in
                 topics ∪ list_to_set
                   (filter (λ word, (4 < String.length word)%nat) words))
      references ∅ in
  let suggestions := [] in
  let suggestions :=
    if contains "what" (lower question)
    then suggestions ++ ["How does this relate to other aspects mentioned in the documents?"]
    else suggestions in
  let suggestions :=
    if contains "why" (lower question)
    then suggestions ++ ["What are the implications of this?"]
    else suggestions in
  let suggestions :=
    if contains "when" (lower question)
    then suggestions ++ ["What happened before or after this?"]
    else suggestions in
  let suggestions :=
    fold_left (λ suggestions topic,
                 suggestions ++ ["Tell me more about " +:+ topic])
      (take 2 (set_order env topics)) suggestions in
  take 3 suggestions.

(** [_extract_references] *)
Definition _extract_references (retrieved_chunks : list Retrieved)
    (answer : string) : list Reference :=
  collect (λ '(chunk_id, content, metadata, score),
             let snippet :=
               if (150 <? String.length content)%nat
               then str_take 150 content +:+ "..."
               else content in
             {| document := default "Unknown" (md_filename metadata);
                page := md_page_number metadata;
                ref_chunk_id := chunk_id;
                content_snippet := snippet;
                relevance_score := round_ndigits env score 3 |})
          retrieved_chunks.

(** The [try] block of [answer_question]: the model call, the read of
    [content], and the parse.  [None.split] raises [AttributeError]. *)
Definition generate_and_parse (prompt : string) : result (string * string) :=
  match chat_completions_create env (LLM_MODEL config)
          "You are a helpful document analysis assistant." prompt 1500 with
  | Raise e => Raise e
  | Ok None => Raise "'NoneType' object has no attribute 'split'"
  | Ok (Some llm_response) => Ok (Parser._parse_llm_response llm_response)
  end.

(** [answer_question(user_id, question, top_k)] against the vector
    collection [coll]. *)
Definition answer_question (coll : collection backend)
    (user_id question : string) (top_k : Z) : db AnswerResponse :=
  history ← get_conversation_history config user_id None;
  let retrieved_chunks := similarity_search config backend coll question top_k in
  match retrieved_chunks with
  | [] =>
      mret {|
        answer := "I couldn't find relevant information in the uploaded documents to answer your question.";
        reasoning := "No documents were found that match your query. Please ensure you have uploaded relevant documents.";
        references := [];
        suggestions := ["Try rephrasing your question"; "Upload relevant documents first"];
        conversation_id := user_id |}
  | _ =>
      let prompt := _build_context_prompt question history retrieved_chunks in
      match generate_and_parse prompt with
      | Raise e =>
          mret {|
            answer := "I encountered an error while processing your question: " +:+ e;
            reasoning := "There was a technical issue with the language model.";
            references := [];
            suggestions := ["Please try asking your question again"];
            conversation_id := user_id |}
      | Ok (answer, reasoning) =>
          let references := _extract_references retrieved_chunks answer in
          let suggestions := _generate_suggestions question answer references in
          let conversation_turn := {|
            Models.question := question;
            turn_answer := answer;
            turn_references := references;
            timestamp := utcnow env 0 |} in
          _ ← store_conversation_turn user_id conversation_turn (utcnow env 1);
          mret {|
            Models.answer := answer;
            Models.reasoning := reasoning;
            references := references;
            suggestions := suggestions;
            conversation_id := user_id |}
      end
  end.
End WithEnv.

End RagChain.

(** ** [app/document_processor.py]: the chunker *)

Module DocumentProcessor.
Import Py Models.

(** [tiktoken]'s encoding object: tokens are integers. *)
Record Tokenizer := {
  encode : string → list Z;
  decode : list Z → string
}.

(** Truthiness of [page_mapping: dict = None]. *)
Definition mapping_truthy (page_mapping : option (gmap string Z)) : bool :=
  match page_mapping with
  | None => false
  | Some m => negb (bool_decide (m = ∅))
  end.

(** [_get_page_for_text] *)
Definition _get_page_for_text (text : string) (page_mapping : option (gmap string Z)) : Z := 1.

Section WithTokenizer.
Variable config : Config.
Variable encoding : Tokenizer.
(** [datetime.utcnow()], by the number of earlier calls *)
Variable utcnow : nat → datetime.

(** [count_tokens] *)
Definition count_tokens (text : string) : Z :=
  Z.of_nat (length (encode encoding text)).

(** [_get_overlap_text] *)
Definition _get_overlap_text (text : string) (overlap_tokens : Z) : string :=
  let tokens := encode encoding text in
  if Z.of_nat (length tokens) <=? overlap_tokens then text
  else
    let overlap_token_list := slice_from (- overlap_tokens) tokens in
    decode encoding overlap_token_list.

(** The variables of the loop in [chunk_text]. *)
Record loop_state := LoopState {
  chunks : list DocumentChunk;
  current_chunk : string;
  current_tokens : Z;
  chunk_index : nat
}.

Definition loop_init : loop_state := LoopState [] "" 0 0.

Section WithDocument.
Variables (document_id filename : string).
Variable page_mapping : option (gmap string Z).

(** The [DocumentChunk(...)] built from the current buffer. *)
Definition make_chunk (st : loop_state) : DocumentChunk := {|
  Models.document_id := document_id;
  Models.filename := filename;
  chunk_id := document_id +:+ "_chunk_" +:+ pretty (chunk_index st);
  Models.chunk_text := strip (current_chunk st);
  page_number :=
    if mapping_truthy page_mapping
    then Some (_get_page_for_text (current_chunk st) page_mapping)
    else None;
  upload_timestamp := utcnow (chunk_index st)
|}.

(** The body of [for sentence in sentences]. *)
Definition chunk_step (st : loop_state) (sentence : string) : loop_state :=
  let sentence := strip sentence in
  if negb (truthy sentence) then st
  else
    let sentence := sentence +:+ "." in
    let sentence_tokens := count_tokens sentence in
    if (CHUNK_SIZE config <? current_tokens st + sentence_tokens)
       && truthy (current_chunk st)
    then
      let chunk := make_chunk st in
      let overlap_text := _get_overlap_text (current_chunk st) (CHUNK_OVERLAP config) in
      let current_chunk' := overlap_text +:+ " " +:+ sentence in
      {| chunks := chunks st ++ [chunk];
         current_chunk := current_chunk';
         current_tokens := count_tokens current_chunk';
         chunk_index := S (chunk_index st) |}
    else
      {| chunks := chunks st;
         current_chunk := current_chunk st +:+ " " +:+ sentence;
         current_tokens := current_tokens st + sentence_tokens;
         chunk_index := chunk_index st |}.

(** What follows the loop: flush a buffer that has content. *)
Definition flush (st : loop_state) : list DocumentChunk :=
  if truthy (strip (current_chunk st))
  then chunks st ++ [make_chunk st]
  else chunks st.

(** [chunk_text(text, document_id, filename, page_mapping)] *)
Definition chunk_text (text : string) : list DocumentChunk :=
  let sentences := split "." text in
  flush (fold_left chunk_step sentences loop_init).
End WithDocument.
End WithTokenizer.

End DocumentProcessor.

(** * Vocabulary of the statements *)

(** ** The chunker: identifiers *)

Module ChunkIdSpec.
Import Py Models DocumentProcessor.

(** The identifier of the chunk with index [i]. *)
Definition chunk_id_of (document_id : string) (i : nat) : string :=
  document_id +:+ "_chunk_" +:+ pretty i.

(** The loop counter is the number of chunks emitted so far, and the
    chunks carry the identifiers [0 .. chunk_index - 1] in order. *)
Definition ids_inv (document_id : string) (st : loop_state) : Prop :=
  chunk_index st = length (chunks st) ∧
  chunk_id <$> chunks st = chunk_id_of document_id <$> seq 0 (length (chunks st)).

End ChunkIdSpec.

(** ** The answer parser: marker lines *)

Module ParserSpec.
Import Py Parser.

(** Some line of the raw text starts with the marker, literally. *)
Definition has_line_starting (marker raw : string) : bool :=
  existsb (λ line, startswith line marker) (split "010" raw).

(** The parser looks at stripped lines: a marker line is a line whose
    stripped text starts with the marker. *)
Definition marker_line (marker line : string) : bool :=
  startswith (strip line) marker.

Definition has_marker_line (marker raw : string) : bool :=
  existsb (marker_line marker) (split "010" raw).

End ParserSpec.

(** ** The orchestrator: what a call reads *)

Module RagSpec.
Import Py Models Database VectorStore RagChain.

(** The history [answer_question] reads at its first step. *)
Definition history_read (config : Config) (user_id : string) (s : Store)
    : list ConversationTurn :=
  (run (get_conversation_history config user_id None) s).1.1.

(** The canned response of the empty-evidence branch. *)
Definition no_evidence_response (user_id : string) : AnswerResponse := {|
  answer := "I couldn't find relevant information in the uploaded documents to answer your question.";
  reasoning := "No documents were found that match your query. Please ensure you have uploaded relevant documents.";
  references := [];
  suggestions := ["Try rephrasing your question"; "Upload relevant documents first"];
  conversation_id := user_id |}.

(** The degraded response of the [except] branch, for [str(e) = msg]. *)
Definition degraded_response (user_id msg : string) : AnswerResponse := {|
  answer := "I encountered an error while processing your question: " +:+ msg;
  reasoning := "There was a technical issue with the language model.";
  references := [];
  suggestions := ["Please try asking your question again"];
  conversation_id := user_id |}.

End RagSpec.

(** ** In-memory collaborators for the examples *)

Module Fake.
Import Py Models Database VectorStore RagChain.

(** [s * n] *)
Fixpoint repeat_str (s : string) (n : nat) : string :=
  match n with
  | O => ""
  | S n' => s +:+ repeat_str s n'
  end.

(** A row of the in-memory index. *)
Definition Row : Type := string * list float * string * Metadata.

(** An index kept as a list of rows: [add] appends one row per identifier
    and [query] answers with the first [k] rows at distance zero. *)
Definition backend (embed : string → result (list float)) : Backend := {|
  collection := list Row;
  embeddings_create := λ _ input, embed input;
  collection_add := λ req coll,
    Ok (coll ++ zip (zip (zip (ids req) (embeddings req)) (documents req)) (metadatas req));
  collection_query := λ coll _ k,
    (λ '(id, _, doc, md), (id, doc, md, PrimFloat.zero)) <$> take (Z.to_nat k) coll;
  isoformat := pretty
|}.

(** An embedding endpoint that is up, and one that is down. *)
Definition embed_ok (input : string) : result (list float) := Ok [PrimFloat.one].
Definition embed_down (input : string) : result (list float) :=
  Raise "Connection error.".

(** A chat endpoint with one fixed outcome; [round] leaves its argument as
    it is and a set is iterated in the order of [elements]. *)
Definition env (reply : result (option string)) : Env := {|
  chat_completions_create := λ _ _ _ _, reply;
  round_ndigits := λ x _, x;
  set_order := elements;
  utcnow := Z.of_nat
|}.

(** One indexed chunk of a one-sentence document. *)
Definition sky_metadata : Metadata := {|
  md_document_id := Some "d1";
  md_filename := Some "sky.txt";
  md_page_number := Some 0;
  md_upload_timestamp := Some "0"
|}.

Definition sky_index : list Row :=
  [("d1_chunk_0", [PrimFloat.one], "The sky is blue.", sky_metadata)].

Definition sky_chunk : DocumentChunk := {|
  document_id := "d1";
  filename := "sky.txt";
  chunk_id := "d1_chunk_0";
  chunk_text := "The sky is blue.";
  page_number := None;
  upload_timestamp := 0
|}.

End Fake.

(** ** The chunker: how a chunk is put together *)

Module ChunkSpec.
Import Py Models DocumentProcessor.

(** No character of the string is anything but white space. *)
Fixpoint all_space (s : string) : bool :=
  match s with
  | "" => true
  | String c s' => isspace c && all_space s'
  end.

(** The sentences the loop works on: the pieces between periods that are
    not blank, stripped, with the period put back. *)
Definition sentences_of_pieces (pieces : list string) : list string :=
  (λ p, strip p +:+ ".") <$> filter (λ p, strip p ≠ "") pieces.

Definition sentences_of (text : string) : list string :=
  sentences_of_pieces (split "." text).

(** The make-up of one chunk: the seed its buffer starts from (none for the
    first chunk) and the sentences appended to it, in order. *)
Record group := Group {
  seed : option string;
  members : list string
}.

(** The buffer [current_chunk] of a group: each sentence is appended after
    one space. *)
Definition buffer_of (g : group) : string :=
  fold_left (λ buf s, buf +:+ " " +:+ s) (members g) (default "" (seed g)).

Section WithTokenizer.
Variable config : Config.
Variable encoding : Tokenizer.

(** The token count the loop keeps in [current_tokens] for a group: the
    sentences are counted one by one and added up; in a seeded chunk the
    seed is counted together with the first sentence. *)
Definition accounted (g : group) : Z :=
  match seed g, members g with
  | None, ms => foldr Z.add 0 (count_tokens encoding <$> ms)
  | Some sd, [] => 0
  | Some sd, s1 :: ms =>
      count_tokens encoding (sd +:+ " " +:+ s1)
      + foldr Z.add 0 (count_tokens encoding <$> ms)
  end.

(** The seed taken from a finished buffer. *)
Definition seed_from (g : group) : option string :=
  Some (_get_overlap_text encoding (buffer_of g) (CHUNK_OVERLAP config)).

(** A finished group holds at least one sentence, none of them blank, and
    its tracked count is within [CHUNK_SIZE] unless it holds one sentence. *)
Definition group_ok (g : group) : Prop :=
  members g ≠ []
  ∧ Forall (λ s, all_space s = false) (members g)
  ∧ (accounted g ≤ CHUNK_SIZE config ∨ length (members g) = 1%nat).

(** The loop invariant: the state after the sentences [processed], with the
    groups of the chunks emitted so far and the group of the buffer. *)
Record chunk_inv (processed : list string) (st : loop_state)
    (closed : list group) (open : group) : Prop := {
  inv_cover : concat (members <$> closed) ++ members open = processed;
  inv_texts : Models.chunk_text <$> chunks st = (λ g, strip (buffer_of g)) <$> closed;
  inv_buffer : current_chunk st = buffer_of open;
  inv_tokens : current_tokens st = accounted open;
  inv_seeds : seed <$> (closed ++ [open]) = None :: (seed_from <$> closed);
  inv_closed : Forall group_ok closed;
  inv_open : open = Group None [] ∧ closed = [] ∨ group_ok open
}.

(** The longest sentence of a text, in tokens. *)
Definition longest_sentence_tokens (text : string) : Z :=
  foldr Z.max 0 (count_tokens encoding <$> sentences_of text).

End WithTokenizer.

(** A tokenizer with one token per character. *)
Definition char_tokenizer : Tokenizer := {|
  encode := λ s, (λ c, Z.of_N (N_of_ascii c)) <$> String.list_ascii_of_string s;
  decode := λ l, String.string_of_list_ascii ((λ z, ascii_of_N (Z.to_N z)) <$> l)
|}.

(** A tokenizer with one token per character that is not white space. *)
Fixpoint nonspace_codes (s : string) : list Z :=
  match s with
  | "" => []
  | String c s' =>
      if isspace c then nonspace_codes s'
      else Z.of_N (N_of_ascii c) :: nonspace_codes s'
  end.

Definition nonspace_tokenizer : Tokenizer := {|
  encode := nonspace_codes;
  decode := λ l, String.string_of_list_ascii ((λ z, ascii_of_N (Z.to_N z)) <$> l)
|}.

End ChunkSpec.

(** * The rest of the sources *)

(** ** More Python built-ins *)

Module PyMore.
Import Py.

(** [s.endswith(suffix)] *)
Definition endswith (s suffix : string) : bool :=
  bool_decide (str_drop (String.length s - String.length suffix) s = suffix).

(** [c in s] for one character. *)
Fixpoint has_char (c : ascii) (s : string) : bool :=
  match s with
  | "" => false
  | String c' s' => bool_decide (c' = c) || has_char c s'
  end.

(** [l[-1]] on the result of [split], which is never empty. *)
Definition last_piece (pieces : list string) : string := List.last pieces "".

(** [bytes.decode('latin-1')]: every byte is the code point of its value,
    so on strings of code points below 256 it changes nothing. *)
Definition decode_latin1 (content : string) : string := content.

End PyMore.

(** ** [app/document_processor.py]: extraction and [process_document] *)

Module Processing.
Import Py PyMore Models DocumentProcessor.

(** [DocumentMetadata]; the fields [document_id], [filename] and
    [upload_timestamp] carry the prefix [meta_] here. *)
Record DocumentMetadata := {
  meta_document_id : string;
  meta_filename : string;
  file_type : string;
  file_size : Z;
  meta_upload_timestamp : datetime;
  total_chunks : Z;
  total_pages : option Z
}.

(** What [process_document] takes from outside: the identifier drawn by
    [uuid.uuid4()], the PDF reader and the UTF-8 codec. *)
Record Extractors := {
  (** [str(uuid.uuid4())] *)
  uuid4 : string;
  (** the texts [page.extract_text()] of [PyPDF2.PdfReader(...).pages], in
      order, or the exception raised on the way *)
  pdf_page_texts : string → result (list string);
  (** [content.decode('utf-8')]; [None] stands for [UnicodeDecodeError] *)
  decode_utf8 : string → option string
}.

Section WithExtractors.
Variable config : Config.
Variable encoding : Tokenizer.
Variable utcnow : nat → datetime.
Variable ext : Extractors.

(** [extract_text_from_pdf]: any exception becomes a [ValueError]. *)
Definition extract_text_from_pdf (file_content : string) : result (string * Z) :=
  match pdf_page_texts ext file_content with
  | Ok text_pages =>
      let full_text := join NL text_pages in
      let total_pages := Z.of_nat (length text_pages) in
      Ok (full_text, total_pages)
  | Raise e => Raise ("Error processing PDF: " +:+ e)
  end.

(** [extract_text_from_txt]: UTF-8 first, then Latin-1, which decodes any
    byte string. *)
Definition extract_text_from_txt (file_content : string) : result (string * Z) :=
  match decode_utf8 ext file_content with
  | Some text => Ok (text, 1)
  | None => Ok (decode_latin1 file_content, 1)
  end.

(** [process_document(filename, file_content)]; every exception it raises
    is a [ValueError]. The clock is read once per chunk and then once for
    the metadata.  The tokenizer of the model always returns, whereas
    [encode] with its default arguments raises on a text that holds one of
    the encoding's special tokens: an [Ok] here is the result of a call that
    returns, and says nothing on whether the call does. *)
Definition process_document (filename file_content : string)
    : result (DocumentMetadata * list DocumentChunk) :=
  let document_id := uuid4 ext in
  let file_size := Z.of_nat (String.length file_content) in
  let file_type := lower (last_piece (split "." filename)) in
  let extracted :=
    if bool_decide (file_type = "pdf") then extract_text_from_pdf file_content
    else if bool_decide (file_type = "txt") then extract_text_from_txt file_content
    else Raise ("Unsupported file type: " +:+ file_type) in
  match extracted with
  | Raise e => Raise e
  | Ok (full_text, total_pages) =>
      let chunks := chunk_text config encoding utcnow document_id filename None full_text in
      let metadata := {|
        meta_document_id := document_id;
        meta_filename := filename;
        file_type := file_type;
        file_size := file_size;
        meta_upload_timestamp := utcnow (length chunks);
        total_chunks := Z.of_nat (length chunks);
        total_pages := Some total_pages |} in
      Ok (metadata, chunks)
  end.

End WithExtractors.

(** The extension check of [upload_document] in [app/main.py]:
    [file.filename.lower().endswith(('.pdf', '.txt'))]. *)
Definition upload_accepts (filename : string) : bool :=
  endswith (lower filename) ".pdf" || endswith (lower filename) ".txt".

End Processing.

(** ** [app/database.py]: documents and chunks *)

Module DocumentStore.
Import Py Models Database Processing.

(** The three collections of the database. *)
Record Collections := {
  documents : list DocumentMetadata;
  chunks : list DocumentChunk;
  conversations : Store
}.

(** [store_document_metadata]: [insert_one] appends the document and the
    driver returns the identifier [oid] it has drawn for it. *)
Definition store_document_metadata (metadata : DocumentMetadata) (oid : string)
    (c : Collections) : string * Collections :=
  (oid, {| documents := documents c ++ [metadata];
           chunks := chunks c;
           conversations := conversations c |}).

(** [store_document_chunks]: [insert_many] refuses an empty list with a
    [TypeError]; otherwise it appends the documents in order and the driver
    returns one identifier per document ([oid k] for the k-th). *)
Definition store_document_chunks (new_chunks : list DocumentChunk)
    (oid : nat → string) (c : Collections) : result (list string * Collections) :=
  match new_chunks with
  | [] => Raise "documents must be a non-empty list"
  | _ =>
      Ok (oid <$> seq 0 (length new_chunks),
          {| documents := documents c;
             chunks := chunks c ++ new_chunks;
             conversations := conversations c |})
  end.

(** [get_documents_list] *)
Definition get_documents_list (c : Collections) : list DocumentMetadata :=
  documents c.

(** [get_chunk_by_id]: [find_one({"chunk_id": chunk_id})], the first match. *)
Fixpoint find_chunk (id : string) (l : list DocumentChunk) : option DocumentChunk :=
  match l with
  | [] => None
  | ch :: l' => if bool_decide (chunk_id ch = id) then Some ch else find_chunk id l'
  end.

Definition get_chunk_by_id (id : string) (c : Collections) : option DocumentChunk :=
  find_chunk id (chunks c).

(** [clear_all_data]: [delete_many({})] on each collection. *)
Definition clear_all_data (c : Collections) : Collections :=
  {| documents := []; chunks := []; conversations := [] |}.

End DocumentStore.

(** ** The question path when the index query raises *)

Module Raising.
Import Py Models Database VectorStore RagChain.

Section WithEnv.
Variable config : Config.
Variable backend : Backend.
Variable env : Env.

(** [collection.query] does not return on every call: Chroma raises when
    [n_results] is not positive, for one.  [query_error coll q k] is the
    message of the exception raised by the query of [coll] for the embedding
    [q] with [n_results = k], when it raises; [collection_query backend]
    gives the rows of a query that returns. *)
Variable query_error : collection backend → list float → Z → option string.

(** [similarity_search]: no handler surrounds [collection.query]. *)
Definition similarity_search (coll : collection backend) (query : string)
    (top_k : Z) : result (list Retrieved) :=
  let query_embedding := get_embedding config backend query in
  match query_embedding with
  | [] => Ok []
  | _ =>
      match query_error coll query_embedding top_k with
      | Some e => Raise e
      | None =>
          let results := collection_query backend coll query_embedding top_k in
          Ok (collect (λ '(chunk_id, document, metadata, distance),
                         (chunk_id, document, metadata,
                          PrimFloat.sub PrimFloat.one distance))
                      results)
      end
  end.

(** [answer_question]: the search is called outside the [try] block, so
    what it raises leaves the function, after the history read. *)
Definition answer_question (coll : collection backend)
    (user_id question : string) (top_k : Z) : db (result AnswerResponse) :=
  history ← get_conversation_history config user_id None;
  match similarity_search coll question top_k with
  | Raise e => mret (Raise e)
  | Ok retrieved_chunks =>
      match retrieved_chunks with
      | [] =>
          mret (Ok {|
            answer := "I couldn't find relevant information in the uploaded documents to answer your question.";
            reasoning := "No documents were found that match your query. Please ensure you have uploaded relevant documents.";
            references := [];
            suggestions := ["Try rephrasing your question"; "Upload relevant documents first"];
            conversation_id := user_id |})
      | _ =>
          let prompt := _build_context_prompt question history retrieved_chunks in
          match generate_and_parse config env prompt with
          | Raise e =>
              mret (Ok {|
                answer := "I encountered an error while processing your question: " +:+ e;
                reasoning := "There was a technical issue with the language model.";
                references := [];
                suggestions := ["Please try asking your question again"];
                conversation_id := user_id |})
          | Ok (answer, reasoning) =>
              let references := _extract_references env retrieved_chunks answer in
              let suggestions := _generate_suggestions env question answer references in
              let conversation_turn := {|
                Models.question := question;
                turn_answer := answer;
                turn_references := references;
                timestamp := utcnow env 0 |} in
              _ ← store_conversation_turn user_id conversation_turn (utcnow env 1);
              mret (Ok {|
                Models.answer := answer;
                Models.reasoning := reasoning;
                references := references;
                suggestions := suggestions;
                conversation_id := user_id |})
          end
      end
  end.

End WithEnv.

End Raising.

(** ** [app/main.py]: the question endpoint *)

Module Main.
Import Py Models Database VectorStore RagChain.

(** What an endpoint gives back: the body of a 200 response, or the status
    and detail of an [HTTPException]. *)
Inductive http (A : Type) : Type :=
| Http200 (body : A)
| HttpError (status : Z) (detail : string).
Global Arguments Http200 {A} body.
Global Arguments HttpError {A} status detail.

(** [QuestionRequest] *)
Record QuestionRequest := {
  req_user_id : string;
  req_question : string;
  req_top_k : Z
}.

Section WithEnv.
Variable config : Config.
Variable backend : Backend.
Variable env : Env.
Variable query_error : collection backend → list float → Z → option string.

(** [ask_question(request)].  The 400 is raised before the [try] block;
    inside it, the handler [except Exception] turns what [answer_question]
    raises into a 500. *)
Definition ask_question (coll : collection backend) (request : QuestionRequest)
    : db (http AnswerResponse) :=
  if negb (truthy (strip (req_question request)))
  then mret (HttpError 400 "Question cannot be empty")
  else
    outcome ← Raising.answer_question config backend env query_error coll
                (req_user_id request) (req_question request) (req_top_k request);
    match outcome with
    | Ok response => mret (Http200 response)
    | Raise e => mret (HttpError 500 ("Error processing question: " +:+ e))
    end.

End WithEnv.

End Main.

(** ** Vocabulary for the prompt *)

Module PromptSpec.
Import Py.

(** The parts after the first, each behind a newline. *)
Definition prompt_tail (parts : list string) : string :=
  foldr (λ p acc, NL +:+ p +:+ acc) "" parts.

End PromptSpec.

(** ** Collaborators of [process_document] for the examples *)

Module FakeFiles.
Import Py Processing.

(** The identifier drawn is [d1]; the PDF reader fails on every content and
    the UTF-8 codec accepts every content as it is. *)
Definition extractors : Extractors := {|
  uuid4 := "d1";
  pdf_page_texts := λ _, Raise "EOF marker not found";
  decode_utf8 := Some
|}.

End FakeFiles.

(** ** The chunker: when a chunk is closed *)

Module ChunkClosing.
Import Py Models DocumentProcessor ChunkSpec.

Section WithTokenizer.
Variable config : Config.
Variable encoding : Tokenizer.

(** Each group but the last was closed because the first sentence of the
    next one did not fit: the tracked count of the group plus the count of
    that sentence is above [CHUNK_SIZE]. *)
Definition closed_when_full (groups : list group) : Prop :=
  ∀ i g g', groups !! i = Some g → groups !! S i = Some g' →
    ∃ s, head (members g') = Some s
         ∧ CHUNK_SIZE config < accounted encoding g + count_tokens encoding s.

End WithTokenizer.

End ChunkClosing.

(** * Properties *)

(** ** Loops that append *)

Lemma collect_fmap {A B} (f : A → B) (l : list A) : collect f l = f <$> l.
Proof.
  unfold collect.
  enough (∀ acc, fold_left (λ acc x, acc ++ [f x]) l acc = acc ++ (f <$> l))
    as H by apply (H []).
  induction l as [|x l IH]; intros acc; simpl.
  - by rewrite app_nil_r.
  - by rewrite IH, <- app_assoc.
Qed.

(** ** Strings *)

Lemma string_app_cons (c : ascii) (s t : string) :
  String c s +:+ t = String c (s +:+ t).
Proof. reflexivity. Qed.

Lemma string_app_nil_r (s : string) : s +:+ "" = s.
Proof.
  induction s as [|c s IH]; [done|]. by rewrite string_app_cons, IH.
Qed.

Lemma string_app_assoc (s1 s2 s3 : string) :
  (s1 +:+ s2) +:+ s3 = s1 +:+ s2 +:+ s3.
Proof.
  induction s1 as [|c s1 IH]; [done|]. by rewrite !string_app_cons, IH.
Qed.

Lemma string_app_length (s1 s2 : string) :
  String.length (s1 +:+ s2) = (String.length s1 + String.length s2)%nat.
Proof. induction s1 as [|c s1 IH]; simpl; [done|]. by rewrite <- IH. Qed.

(** ** The chunker: identifiers *)

Section ChunkIds.
Import Py Models DocumentProcessor ChunkIdSpec.
Variable config : Config.
Variable encoding : Tokenizer.
Variable utcnow : nat → datetime.
Variables (document_id filename : string).
Variable page_mapping : option (gmap string Z).

Local Abbreviation step := (chunk_step config encoding utcnow document_id filename page_mapping).
Local Abbreviation mk := (make_chunk utcnow document_id filename page_mapping).
Local Abbreviation chunk_id_of := (ChunkIdSpec.chunk_id_of document_id).
Local Abbreviation ids_inv := (ChunkIdSpec.ids_inv document_id).

Lemma chunk_id_of_inj : Inj (=) (=) chunk_id_of.
Proof.
  intros i j H. unfold chunk_id_of in H.
  apply (inj (String.app document_id)) in H.
  apply (inj (String.app "_chunk_")) in H.
  by apply (inj pretty) in H.
Qed.

Lemma ids_inv_init : ids_inv loop_init.
Proof. by split. Qed.

Lemma ids_inv_emit st :
  ids_inv st →
  chunk_id <$> (chunks st ++ [mk st])
  = chunk_id_of <$> seq 0 (length (chunks st ++ [mk st])).
Proof.
  intros [Hidx Hids].
  rewrite fmap_app, length_app, Hids. simpl.
  rewrite Nat.add_1_r, seq_S, fmap_app. simpl.
  by rewrite Hidx.
Qed.

Lemma ids_inv_step st sentence : ids_inv st → ids_inv (step st sentence).
Proof.
  intros Hinv. unfold chunk_step.
  destruct (negb (truthy (strip sentence))); [done|].
  destruct (_ && _); simpl.
  - split; simpl.
    + rewrite length_app. simpl. destruct Hinv as [-> _]. lia.
    + by apply ids_inv_emit.
  - exact Hinv.
Qed.

Lemma ids_inv_loop sentences st :
  ids_inv st → ids_inv (fold_left step sentences st).
Proof.
  revert st. induction sentences as [|s ss IH]; intros st Hinv; simpl; [done|].
  apply IH, ids_inv_step, Hinv.
Qed.

(** C5. For a text on which [chunk_text] returns N chunks, their
    [chunk_id]s are, in order, [{document_id}_chunk_0] to
    [{document_id}_chunk_{N-1}], and no identifier occurs twice. *)
Theorem chunk_ids_contiguous (text : string) :
  let cs := chunk_text config encoding utcnow document_id filename page_mapping text in
  chunk_id <$> cs
    = (λ i : nat, document_id +:+ "_chunk_" +:+ pretty i) <$> seq 0 (length cs)
  ∧ NoDup (chunk_id <$> cs).
Proof.
  intros cs.
  assert (chunk_id <$> cs = chunk_id_of <$> seq 0 (length cs)) as Hids.
  { subst cs. unfold chunk_text, flush.
    pose proof (ids_inv_loop (split "." text) loop_init ids_inv_init) as Hinv.
    destruct (truthy _).
    - by apply ids_inv_emit.
    - apply Hinv. }
  split; [exact Hids|].
  rewrite Hids. apply NoDup_fmap_2; [apply chunk_id_of_inj | apply NoDup_seq].
Qed.
End ChunkIds.

(** ** The answer parser: fallbacks *)

Section ParserFallbacks.
Import Py Parser ParserSpec.

(** Without marker lines and outside any section the scan changes nothing. *)
Lemma scan_no_marker lines st :
  existsb (marker_line "ANSWER:") lines = false →
  existsb (marker_line "REASONING:") lines = false →
  current_section st = NoSection →
  fold_left scan_line lines st = st.
Proof.
  revert st. induction lines as [|l ls IH]; intros st Ha Hr Hsec; simpl in *; [done|].
  apply orb_false_elim in Ha as [Ha1 Ha2], Hr as [Hr1 Hr2].
  assert (scan_line st l = st) as ->; [|by apply IH].
  unfold scan_line. unfold marker_line in Ha1, Hr1.
  rewrite Ha1, Hr1, Hsec. by destruct st.
Qed.

(** Without a [REASONING:] line nothing is ever captured as reasoning. *)
Lemma scan_no_reasoning lines st :
  existsb (marker_line "REASONING:") lines = false →
  reasoning st = "" → current_section st ≠ InReasoning →
  reasoning (fold_left scan_line lines st) = "".
Proof.
  revert st. induction lines as [|l ls IH]; intros st Hr Hemp Hsec; simpl in *; [done|].
  apply orb_false_elim in Hr as [Hr1 Hr2].
  apply IH; [done|..]; unfold scan_line; unfold marker_line in Hr1; rewrite Hr1;
    destruct (startswith (strip l) "ANSWER:"); simpl; try done;
    destruct (bool_decide (current_section st = InAnswer) && _); simpl; try done;
    rewrite (bool_decide_eq_false_2 _ Hsec); simpl; done.
Qed.

(** C2, as the parser has it. When no stripped line starts with [ANSWER:] or
    [REASONING:], the answer is the raw text with the surrounding white space
    stripped and the reasoning is "Answer derived from document analysis.".
    When some stripped line starts with [ANSWER:] and none with [REASONING:],
    the reasoning is "Based on the provided document context." if the text
    captured after [ANSWER:] is non-empty; if nothing was captured the first
    fallback applies. *)
Theorem parse_fallbacks (raw : string) :
  (has_marker_line "ANSWER:" raw = false →
   has_marker_line "REASONING:" raw = false →
   _parse_llm_response raw
   = (strip raw, "Answer derived from document analysis."))
  ∧ (has_marker_line "ANSWER:" raw = true →
     has_marker_line "REASONING:" raw = false →
     _parse_llm_response raw
     = if truthy (answer (scan raw))
       then (strip (answer (scan raw)), "Based on the provided document context.")
       else (strip raw, "Answer derived from document analysis.")).
Proof.
  split.
  - intros Ha Hr. unfold _parse_llm_response, scan.
    rewrite (scan_no_marker _ scan_init Ha Hr eq_refl). reflexivity.
  - intros _ Hr. unfold _parse_llm_response.
    assert (reasoning (scan raw) = "") as Hreas
      by (by apply scan_no_reasoning).
    rewrite Hreas. destruct (truthy (answer (scan raw))); reflexivity.
Qed.

(** Two replies: one without markers that ends in a newline, and one with
    an answer line, a continuation line and no reasoning. *)
Lemma parse_fallbacks_witness :
  _parse_llm_response ("The sky is blue." +:+ NL)
  = ("The sky is blue.", "Answer derived from document analysis.")
  ∧ _parse_llm_response ("ANSWER: Paris" +:+ NL +:+ "is the capital.")
    = ("Paris is the capital.", "Based on the provided document context.").
Proof.
  split.
  - exact (proj1 (parse_fallbacks ("The sky is blue." +:+ NL)) eq_refl eq_refl).
  - exact (proj2 (parse_fallbacks ("ANSWER: Paris" +:+ NL +:+ "is the capital."))
             eq_refl eq_refl).
Defined.

(** C2 as stated fails twice. A raw text without markers that ends in a
    newline is not returned verbatim, and a bare [ANSWER:] line without
    content gets the other fixed reasoning. *)
Lemma parse_fallbacks_as_stated_fail :
  (let raw := "hello" +:+ NL in
   has_line_starting "ANSWER:" raw = false
   ∧ has_line_starting "REASONING:" raw = false
   ∧ (_parse_llm_response raw).1 ≠ raw)
  ∧ (let raw := "ANSWER:" in
     has_line_starting "ANSWER:" raw = true
     ∧ has_line_starting "REASONING:" raw = false
     ∧ (_parse_llm_response raw).2 ≠ "Based on the provided document context.").
Proof. repeat split; vm_compute; congruence. Qed.

End ParserFallbacks.

(** ** The reference extractor *)

Section References.
Import Py Models RagChain.
Variable env : Env.

Lemma str_take_drop n s : str_take n s +:+ str_drop n s = s.
Proof.
  revert s. induction n as [|n IH]; intros [|c s]; simpl; try done.
  by rewrite <- (IH s) at 3.
Qed.

Lemma str_take_length n s :
  String.length (str_take n s) = Nat.min n (String.length s).
Proof.
  revert s. induction n as [|n IH]; intros [|c s]; simpl; try done.
  by rewrite IH.
Qed.

(** The reference built from one retrieved tuple. *)
Lemma extract_references_fmap retrieved answer :
  _extract_references env retrieved answer
  = (λ '(chunk_id, content, metadata, score),
       {| document := default "Unknown" (md_filename metadata);
          page := md_page_number metadata;
          ref_chunk_id := chunk_id;
          content_snippet :=
            if (150 <? String.length content)%nat
            then str_take 150 content +:+ "..." else content;
          relevance_score := round_ndigits env score 3 |}) <$> retrieved.
Proof. unfold _extract_references. apply collect_fmap. Qed.

(** C6. [_extract_references] returns one reference per retrieved tuple, in
    the order of retrieval. The snippet is the chunk text itself when it has
    at most 150 characters, and its first 150 characters followed by "..."
    (153 characters in all) when it is longer; the score is
    [round(score, 3)]; the answer argument plays no role. *)
Theorem extract_references_spec (retrieved : list Retrieved) (answer : string) :
  let refs := _extract_references env retrieved answer in
  length refs = length retrieved
  ∧ (∀ i chunk_id content metadata score,
       retrieved !! i = Some (chunk_id, content, metadata, score) →
       ∃ r, refs !! i = Some r
         ∧ ref_chunk_id r = chunk_id
         ∧ relevance_score r = round_ndigits env score 3
         ∧ ((String.length content ≤ 150)%nat → content_snippet r = content)
         ∧ ((150 < String.length content)%nat →
            content_snippet r = str_take 150 content +:+ "..."
            ∧ String.length (str_take 150 content) = 150%nat
            ∧ String.length (content_snippet r) = 153%nat
            ∧ ∃ rest, content = str_take 150 content +:+ rest))
  ∧ ∀ answer', _extract_references env retrieved answer' = refs.
Proof.
  intros refs. subst refs. rewrite extract_references_fmap.
  split; [by rewrite length_fmap|]. split.
  - intros i chunk_id content metadata score Hi.
    eexists. split; [by rewrite list_lookup_fmap, Hi|].
    cbn [ref_chunk_id relevance_score content_snippet].
    split; [done|]. split; [done|]. split.
    + intros Hle. apply Nat.ltb_ge in Hle. by rewrite Hle.
    + intros Hlt. pose proof Hlt as Hlt'. apply Nat.ltb_lt in Hlt'. rewrite Hlt'.
      assert (String.length (str_take 150 content) = 150%nat) as Hlen
        by (rewrite str_take_length; lia).
      split; [done|]. split; [done|]. split.
      * rewrite string_app_length, Hlen. reflexivity.
      * exists (str_drop 150 content). by rewrite str_take_drop.
  - intros answer'. by rewrite extract_references_fmap.
Qed.

End References.

(** A 200-character chunk body is cut to 150 characters plus the marker. *)
Lemma extract_references_spec_witness :
  let content := Fake.repeat_str "ab" 100 in
  let retrieved := [("d1_chunk_0", content, Fake.sky_metadata, PrimFloat.one)] in
  ∃ r, RagChain._extract_references (Fake.env (Py.Raise "")) retrieved "" !! 0%nat = Some r
    ∧ String.length (Models.content_snippet r) = 153%nat
    ∧ Models.content_snippet r = Fake.repeat_str "ab" 75 +:+ "...".
Proof.
  intros content retrieved.
  destruct (extract_references_spec (Fake.env (Py.Raise "")) retrieved "")
    as (_ & H & _).
  destruct (H 0%nat _ _ _ _ eq_refl) as (r & Hr & _ & _ & _ & Hlong).
  exists r. split; [exact Hr|].
  destruct Hlong as (Hs & _ & Hlen & _); [vm_compute; lia|].
  split; [exact Hlen|]. rewrite Hs. reflexivity.
Defined.

(** ** The orchestrator *)

Section Orchestrator.
Import Py Models Database VectorStore RagChain RagSpec.
Variable config : Config.
Variable backend : Backend.
Variable env : Env.
Variable coll : collection backend.

Local Abbreviation ask := (answer_question config backend env coll).
Local Abbreviation search := (similarity_search config backend coll).

(** One call of [answer_question], path by path: the response, the store
    afterwards and the store commands issued. *)
Lemma run_answer_question (user_id question : string) (top_k : Z) (s : Store) :
  run (ask user_id question top_k) s =
  let history := history_read config user_id s in
  let retrieved := search question top_k in
  match retrieved with
  | [] => (no_evidence_response user_id, s, [CmdFindOne user_id])
  | _ =>
      match generate_and_parse config env
              (_build_context_prompt question history retrieved) with
      | Raise e => (degraded_response user_id e, s, [CmdFindOne user_id])
      | Ok (answer, reasoning) =>
          let references := _extract_references env retrieved answer in
          let suggestions := _generate_suggestions env question answer references in
          let turn := {| Models.question := question; turn_answer := answer;
                         turn_references := references;
                         timestamp := utcnow env 0 |} in
          ({| Models.answer := answer; Models.reasoning := reasoning;
              references := references; suggestions := suggestions;
              conversation_id := user_id |},
           update_one_push user_id turn (utcnow env 1) s,
           [CmdFindOne user_id; CmdPush user_id turn (utcnow env 1)])
      end
  end.
Proof.
  unfold answer_question, history_read, get_conversation_history.
  cbn [mbind db_bind bind run].
  destruct (find_one user_id s) as [h|]; cbn [bind run fst snd];
    (destruct (search question top_k) as [|c cs]; [reflexivity|]);
    (destruct (generate_and_parse _ _ _) as [[answer reasoning]|e]; reflexivity).
Qed.

(** C1. When the vector search returns nothing, [answer_question] returns
    the fixed response (the apology, no references, two suggestions), leaves
    the store as it was and issues no command but the history read. *)
Theorem empty_evidence_canned (user_id question : string) (top_k : Z) (s : Store) :
  search question top_k = [] →
  let '(response, s', log) := run (ask user_id question top_k) s in
  response = no_evidence_response user_id
  ∧ answer response
    = "I couldn't find relevant information in the uploaded documents to answer your question."
  ∧ references response = []
  ∧ length (suggestions response) = 2%nat
  ∧ s' = s
  ∧ log = [CmdFindOne user_id].
Proof.
  intros Hempty. rewrite run_answer_question. cbn zeta. rewrite Hempty.
  by repeat split.
Qed.

(** C3. When evidence was found and the chat call raises with message [e],
    [answer_question] returns the degraded response: the answer ends in [e],
    there are no references and one suggestion; the store is as it was and no
    command but the history read was issued. *)
Theorem generation_failure_degraded (user_id question : string) (top_k : Z)
    (s : Store) (e : string) :
  search question top_k ≠ [] →
  chat_completions_create env (LLM_MODEL config)
    "You are a helpful document analysis assistant."
    (_build_context_prompt question (history_read config user_id s)
       (search question top_k)) 1500 = Raise e →
  let '(response, s', log) := run (ask user_id question top_k) s in
  response = degraded_response user_id e
  ∧ answer response = "I encountered an error while processing your question: " +:+ e
  ∧ references response = []
  ∧ suggestions response = ["Please try asking your question again"]
  ∧ s' = s
  ∧ log = [CmdFindOne user_id].
Proof.
  intros Hfound Hraise. rewrite run_answer_question. cbn zeta.
  destruct (search question top_k) as [|c cs]; [done|].
  unfold generate_and_parse. rewrite Hraise. by repeat split.
Qed.

(** C10. Whatever path a call takes, the [conversation_id] of the response
    is the [user_id] it was called with. *)
Theorem conversation_id_is_user_id (user_id question : string) (top_k : Z) (s : Store) :
  conversation_id (run (ask user_id question top_k) s).1.1 = user_id.
Proof.
  rewrite run_answer_question. cbn zeta.
  destruct (search question top_k) as [|c cs]; [reflexivity|].
  destruct (generate_and_parse _ _ _) as [[answer reasoning]|e]; reflexivity.
Qed.

(** The suggestion list never has more than three entries. *)
Lemma generate_suggestions_bounded question answer references :
  (length (_generate_suggestions env question answer references) ≤ 3)%nat.
Proof. unfold _generate_suggestions. rewrite length_take. lia. Qed.

(** X28. On every path of [answer_question] (no evidence, failed
    generation, success) the response has at most three suggestions. *)
Lemma suggestions_bounded (user_id question : string) (top_k : Z) (s : Store) :
  (length (suggestions (run (ask user_id question top_k) s).1.1) ≤ 3)%nat.
Proof.
  rewrite run_answer_question. cbn zeta.
  destruct (search question top_k) as [|c cs]; [simpl; lia|].
  destruct (generate_and_parse _ _ _) as [[answer reasoning]|e]; [|simpl; lia].
  apply generate_suggestions_bounded.
Qed.

(** The two terminal branches give a non-empty answer. *)
Lemma terminal_answers_nonempty (user_id e : string) :
  answer (no_evidence_response user_id) ≠ ""
  ∧ answer (degraded_response user_id e) ≠ "".
Proof. split; discriminate. Qed.

End Orchestrator.

(** A question asked while the embedding endpoint is down: the search is
    empty and the store is left as it was. *)
Lemma empty_evidence_canned_witness :
  let s := [ {| Database.user_id := "u1"; Database.conversations := [];
                Database.last_updated := 0 |} ] in
  Database.run
    (RagChain.answer_question Models.default_config (Fake.backend Fake.embed_down)
       (Fake.env (Py.Ok (Some "ANSWER: blue"))) Fake.sky_index "u1" "What color is the sky?" 4) s
  = (RagSpec.no_evidence_response "u1", s, [Database.CmdFindOne "u1"]).
Proof.
  intros s.
  pose proof (empty_evidence_canned Models.default_config (Fake.backend Fake.embed_down)
                (Fake.env (Py.Ok (Some "ANSWER: blue"))) Fake.sky_index
                "u1" "What color is the sky?" 4 s eq_refl) as H.
  destruct (Database.run _ s) as [[response s'] log].
  destruct H as (-> & _ & _ & _ & -> & ->). reflexivity.
Defined.

(** A question with evidence, asked while the chat endpoint times out. *)
Lemma generation_failure_degraded_witness :
  Database.run
    (RagChain.answer_question Models.default_config (Fake.backend Fake.embed_ok)
       (Fake.env (Py.Raise "Request timed out.")) Fake.sky_index
       "u1" "What color is the sky?" 4) []
  = (RagSpec.degraded_response "u1" "Request timed out.", [], [Database.CmdFindOne "u1"]).
Proof.
  pose proof (generation_failure_degraded Models.default_config (Fake.backend Fake.embed_ok)
                (Fake.env (Py.Raise "Request timed out.")) Fake.sky_index
                "u1" "What color is the sky?" 4 [] "Request timed out.") as H.
  destruct (Database.run _ []) as [[response s'] log].
  destruct H as (-> & _ & _ & _ & -> & ->); [discriminate|reflexivity|reflexivity].
Defined.

(** C8 does not hold on the success path. A reply that has a [REASONING:]
    line and no [ANSWER:] line parses to an empty answer: the fallback block
    fills in a missing reasoning, and fills in the answer only when both
    fields are empty. The response then carries the empty answer, and the
    turn stored for the user does too. *)
Theorem reasoning_only_reply_gives_empty_answer :
  let reply := "REASONING: The document says the sky is blue." in
  Parser._parse_llm_response reply = ("", "The document says the sky is blue.")
  ∧ let '(response, s', log) :=
      Database.run
        (RagChain.answer_question Models.default_config (Fake.backend Fake.embed_ok)
           (Fake.env (Py.Ok (Some reply))) Fake.sky_index
           "u1" "What color is the sky?" 4) [] in
    Models.answer response = ""
    ∧ Models.reasoning response = "The document says the sky is blue."
    ∧ length (Models.references response) = 1%nat
    ∧ Models.turn_answer <$> Database.stored_history "u1" s' = [""].
Proof. vm_compute. by repeat split. Qed.

(** ** The vector store adapter *)

Section EmbeddingFailure.
Import Py Models VectorStore.
Variable config : Config.
Variable backend : Backend.

(** A failed embedding call is turned into the empty vector. *)
Lemma get_embedding_failure text e :
  embeddings_create backend (EMBEDDING_MODEL config) text = Raise e →
  get_embedding config backend text = [].
Proof. unfold get_embedding. by intros ->. Qed.

(** Query path: with a failed query embedding the search returns nothing
    and the index is not consulted. *)
Lemma similarity_search_embedding_failure coll query top_k e :
  embeddings_create backend (EMBEDDING_MODEL config) query = Raise e →
  similarity_search config backend coll query top_k = [].
Proof.
  intros H. unfold similarity_search. by rewrite (get_embedding_failure _ _ H).
Qed.

(** Ingestion path: the request handed to [collection.add] has one row per
    chunk, whatever the embedding calls did. *)
Lemma add_chunks_request_rows chunks :
  let req := add_chunks_request config backend chunks in
  ids req = chunk_id <$> chunks
  ∧ documents req = chunk_text <$> chunks
  ∧ embeddings req = (λ c, get_embedding config backend (chunk_text c)) <$> chunks.
Proof.
  unfold add_chunks_request. cbn. split; [done|]. split; [done|].
  by rewrite collect_fmap, <- list_fmap_compose.
Qed.

End EmbeddingFailure.

(** C7 holds on the query path and fails on the ingestion path. With the
    embedding endpoint down, the search for a question returns nothing, but
    [add_chunks] still hands the chunk to the index, with the empty vector
    that [get_embedding] returned: the chunk is not skipped. *)
Theorem add_chunks_indexes_failed_embedding :
  VectorStore.similarity_search Models.default_config (Fake.backend Fake.embed_down)
    Fake.sky_index "What color is the sky?" 4 = []
  ∧ VectorStore.embeddings
      (VectorStore.add_chunks_request Models.default_config
         (Fake.backend Fake.embed_down) [Fake.sky_chunk]) = [[]]
  ∧ VectorStore.ids
      (VectorStore.add_chunks_request Models.default_config
         (Fake.backend Fake.embed_down) [Fake.sky_chunk]) = ["d1_chunk_0"]
  ∧ VectorStore.add_chunks Models.default_config (Fake.backend Fake.embed_down)
      [Fake.sky_chunk] []
    = Py.Ok [("d1_chunk_0", [], "The sky is blue.", Fake.sky_metadata)].
Proof. vm_compute. by repeat split. Qed.

(** ** The conversation store *)

Section HistoryAppend.
Import Py Models Database.

Lemma find_one_update_one_push uid turn now s :
  find_one uid (update_one_push uid turn now s)
  = Some (from_option
            (λ d, {| user_id := user_id d;
                     conversations := conversations d ++ [turn];
                     last_updated := now |})
            {| user_id := uid; conversations := [turn]; last_updated := now |}
            (find_one uid s)).
Proof.
  induction s as [|d s IH]; simpl.
  - by rewrite bool_decide_eq_true_2.
  - destruct (bool_decide (user_id d = uid)) eqn:Hd; simpl.
    + by rewrite Hd.
    + by rewrite Hd, IH.
Qed.

(** A push extends what is stored for the user by exactly that turn. *)
Lemma stored_history_push uid turn now s :
  stored_history uid (update_one_push uid turn now s)
  = stored_history uid s ++ [turn].
Proof.
  unfold stored_history. rewrite find_one_update_one_push.
  by destruct (find_one uid s).
Qed.

(** Other users are not touched by a push. *)
Lemma stored_history_push_other uid uid' turn now s :
  uid ≠ uid' →
  stored_history uid' (update_one_push uid turn now s) = stored_history uid' s.
Proof.
  intros Hne. unfold stored_history. f_equal.
  induction s as [|d s IH]; simpl.
  - by rewrite bool_decide_eq_false_2.
  - destruct (bool_decide (user_id d = uid)) eqn:Hd; simpl.
    + apply bool_decide_eq_true_1 in Hd.
      by rewrite !bool_decide_eq_false_2 by congruence.
    + by rewrite IH.
Qed.

(** An upsert whose filter matches nothing adds its document at the end. *)
Lemma update_one_push_unmatched uid turn now s :
  find_one uid s = None →
  update_one_push uid turn now s = s ++ [upserted uid [turn] now].
Proof.
  induction s as [|d s IH]; simpl; [done|].
  destruct (bool_decide (user_id d = uid)); [done|].
  intros Hs. by rewrite IH.
Qed.

Lemma update_one_set_unmatched uid turns now s :
  find_one uid s = None →
  update_one_set uid turns now s = s ++ [upserted uid turns now].
Proof.
  induction s as [|d s IH]; simpl; [done|].
  destruct (bool_decide (user_id d = uid)); [done|].
  intros Hs. by rewrite IH.
Qed.

(** A push into a document that is there adds no document. *)
Lemma update_one_push_matched uid turn now s :
  is_Some (find_one uid s) →
  is_Some (find_one uid (update_one_push uid turn now s))
  ∧ length (update_one_push uid turn now s) = length s.
Proof.
  intros Hs. split; [by rewrite find_one_update_one_push|].
  induction s as [|d s IH]; simpl in *; [by destruct Hs|].
  destruct (bool_decide (user_id d = uid)); simpl; [done|].
  by rewrite IH.
Qed.

(** A client that takes its steps alone ends where sequential execution
    ends: the two steps of an unmatched upsert make up one [update_one]. *)
Lemma step_alone {A} (c : client A) s :
  finish (step c s).1 (step c s).2 = finish c s.
Proof.
  destruct c as [[a|uid k|uid turn now k|uid turns now k]|d k]; simpl; try done.
  - by destruct (run (k (find_one uid s)) s) as [[??]?].
  - destruct (find_one uid s) eqn:Hs; simpl.
    + by destruct (run k _) as [[??]?].
    + rewrite (update_one_push_unmatched _ _ _ _ Hs).
      by destruct (run k _) as [[??]?].
  - destruct (find_one uid s) eqn:Hs; simpl.
    + by destruct (run k _) as [[??]?].
    + rewrite (update_one_set_unmatched _ _ _ _ Hs).
      by destruct (run k _) as [[??]?].
Qed.

(** Clients that have finished take no further part. *)
Lemma interleave_finished {A B} sched (a : A) (b : B) s :
  interleave sched (Running (Ret a)) (Running (Ret b)) s = s.
Proof.
  revert s. induction sched as [|[] sched IH]; intros s; simpl; by rewrite ?IH.
Qed.

Lemma interleave_done_l {A} sched (a : A) uid turn now s :
  is_Some (find_one uid s) →
  interleave sched (Running (Ret a))
    (Running (store_conversation_turn uid turn now)) s
  = update_one_push uid turn now s.
Proof.
  revert s. induction sched as [|[] sched IH]; intros s Hs; simpl; [done|by apply IH|].
  destruct Hs as [d Hs]. rewrite Hs. apply interleave_finished.
Qed.

Lemma interleave_done_r {B} sched (b : B) uid turn now s :
  is_Some (find_one uid s) →
  interleave sched (Running (store_conversation_turn uid turn now))
    (Running (Ret b)) s
  = update_one_push uid turn now s.
Proof.
  revert s. induction sched as [|[] sched IH]; intros s Hs; simpl; [done| |by apply IH].
  destruct Hs as [d Hs]. rewrite Hs. apply interleave_finished.
Qed.

(** Two concurrent [store_conversation_turn] calls for a user whose document
    is in the collection end in one of the two serial orders of their
    pushes. *)
Lemma interleave_store_turns sched uid t1 n1 t2 n2 s :
  is_Some (find_one uid s) →
  let s' := interleave sched (Running (store_conversation_turn uid t1 n1))
              (Running (store_conversation_turn uid t2 n2)) s in
  s' = update_one_push uid t2 n2 (update_one_push uid t1 n1 s)
  ∨ s' = update_one_push uid t1 n1 (update_one_push uid t2 n2 s).
Proof.
  revert s. induction sched as [|[] sched IH]; intros s Hs; simpl.
  - by left.
  - left. destruct Hs as [d Hs]. rewrite Hs. apply interleave_done_l.
    apply update_one_push_matched. by rewrite Hs.
  - right. destruct Hs as [d Hs]. rewrite Hs. apply interleave_done_r.
    apply update_one_push_matched. by rewrite Hs.
Qed.

(** X30. Once the collection holds a document for the user, concurrent
    pushes are safe: for every schedule of two [store_conversation_turn]
    calls for that user, what is stored for the user afterwards is what was
    stored before followed by both turns, in one of the two orders, and no
    document has been added. *)
Theorem concurrent_pushes_both_persist (sched : list bool) (uid : string)
    (t1 t2 : ConversationTurn) (n1 n2 : datetime) (s : Store) :
  is_Some (find_one uid s) →
  let s' := interleave sched (Running (store_conversation_turn uid t1 n1))
              (Running (store_conversation_turn uid t2 n2)) s in
  (stored_history uid s' = stored_history uid s ++ [t1; t2]
   ∨ stored_history uid s' = stored_history uid s ++ [t2; t1])
  ∧ length s' = length s.
Proof.
  intros Hs s'.
  pose proof (update_one_push_matched uid t1 n1 s Hs) as [Hs1 Hlen1].
  pose proof (update_one_push_matched uid t2 n2 s Hs) as [Hs2 Hlen2].
  destruct (interleave_store_turns sched uid t1 n1 t2 n2 s Hs) as [H|H];
    subst s'; rewrite H, !stored_history_push, <- app_assoc.
  - split; [by left|].
    rewrite (proj2 (update_one_push_matched uid t2 n2 _ Hs1)). done.
  - split; [by right|].
    rewrite (proj2 (update_one_push_matched uid t1 n1 _ Hs2)). done.
Qed.

(** C9. The first turns of a user, stored concurrently.  Both upserts look
    for the user's document before either has inserted one, so each inserts
    a document of its own.  The collection then holds two documents for the
    user; [find_one] shows the first, so the history read returns one of the
    two turns, and a turn stored later joins that first document: the other
    turn is never read again. *)
Theorem concurrent_first_turns_lose_one (uid : string)
    (t1 t2 t3 : ConversationTurn) (n1 n2 n3 : datetime) :
  let s' := interleave [true; false]
              (Running (store_conversation_turn uid t1 n1))
              (Running (store_conversation_turn uid t2 n2)) [] in
  s' = [upserted uid [t1] n1; upserted uid [t2] n2]
  ∧ (run (get_conversation_history default_config uid None) s').1.1 = [t1]
  ∧ stored_history uid (run (store_conversation_turn uid t3 n3) s').1.2 = [t1; t3].
Proof.
  cbv zeta. split; [reflexivity|].
  unfold stored_history. simpl.
  rewrite !bool_decide_eq_true_2 by done. simpl.
  rewrite !bool_decide_eq_true_2 by done. done.
Qed.

(** The comparison: under read-modify-write even a document that is there
    does not help; the schedule "both read, then both write" keeps only the
    turn written last. *)
Lemma read_modify_write_loses_update uid old n0 t1 t2 n1 n2 :
  stored_history uid
    (interleave [true; false] (Running (read_modify_write_turn uid t1 n1))
       (Running (read_modify_write_turn uid t2 n2)) [upserted uid old n0])
  = old ++ [t2].
Proof.
  unfold stored_history. simpl.
  repeat (rewrite bool_decide_eq_true_2 by done; simpl). done.
Qed.

End HistoryAppend.

(** ** White space and stripping *)

Section Stripping.
Import Py ChunkSpec.

Lemma all_space_app s1 s2 :
  all_space (s1 +:+ s2) = all_space s1 && all_space s2.
Proof.
  induction s1 as [|c s1 IH]; simpl; [done|].
  by rewrite IH, andb_assoc.
Qed.

Lemma lstrip_keeps_content s : all_space s = false → all_space (lstrip s) = false.
Proof.
  induction s as [|c s IH]; simpl; [done|].
  destruct (isspace c) eqn:Hc; simpl; [done|]. by rewrite Hc.
Qed.

Lemma rstrip_empty s : rstrip s = "" → all_space s = true.
Proof.
  induction s as [|c s IH]; simpl; [done|].
  destruct (rstrip s) as [|c' r]; [|done].
  destruct (isspace c); [|done]. intros _. by rewrite IH.
Qed.

(** A string with a character that is not white space does not strip to
    the empty string. *)
Lemma strip_nonblank s : all_space s = false → strip s ≠ "".
Proof.
  intros Hs Hstrip. apply rstrip_empty in Hstrip.
  by rewrite (lstrip_keeps_content s Hs) in Hstrip.
Qed.

Lemma all_space_nonempty s : all_space s = false → s ≠ "".
Proof. by destruct s. Qed.

Lemma sentence_nonblank p : all_space (strip p +:+ ".") = false.
Proof. rewrite all_space_app. simpl. apply andb_false_r. Qed.

End Stripping.

(** ** The chunker: whole sentences, tracked counts and seeds *)

Section ChunkStructure.
Import Py Models DocumentProcessor ChunkSpec.
Variable config : Config.
Variable encoding : Tokenizer.
Variable utcnow : nat → datetime.
Variables (document_id filename : string).
Variable page_mapping : option (gmap string Z).

Local Abbreviation step := (chunk_step config encoding utcnow document_id filename page_mapping).
Local Abbreviation inv := (chunk_inv config encoding).
Local Abbreviation count := (count_tokens encoding).
Local Abbreviation ok := (group_ok config encoding).

Lemma sum_snoc (l : list Z) (x : Z) :
  foldr Z.add 0 (l ++ [x]) = foldr Z.add 0 l + x.
Proof. induction l as [|y l IH]; simpl; lia. Qed.

Lemma buffer_of_snoc sd ms s :
  buffer_of (Group sd (ms ++ [s])) = buffer_of (Group sd ms) +:+ " " +:+ s.
Proof. unfold buffer_of. simpl. by rewrite fold_left_app. Qed.

Lemma buffer_of_nonblank g :
  members g ≠ [] → Forall (λ s, all_space s = false) (members g) →
  all_space (buffer_of g) = false.
Proof.
  destruct g as [sd ms]. simpl. intros Hne Hall.
  destruct (exists_last Hne) as (ms' & s & ->).
  rewrite buffer_of_snoc, !all_space_app.
  apply Forall_app in Hall as [_ Hs]. apply Forall_inv in Hs.
  simpl in Hs. rewrite Hs. by rewrite !andb_false_r.
Qed.

Lemma group_ok_nonblank g : ok g → all_space (buffer_of g) = false.
Proof. intros (Hne & Hall & _). by apply buffer_of_nonblank. Qed.

(** The buffer of a group starts with its seed. *)
Lemma buffer_of_starts_with_seed g :
  ∃ rest, buffer_of g = default "" (seed g) +:+ rest.
Proof.
  destruct g as [sd ms]. unfold buffer_of. simpl.
  generalize (default "" sd). induction ms as [|s ms IH]; intros init; simpl.
  - exists "". by rewrite string_app_nil_r.
  - destruct (IH (init +:+ " " +:+ s)) as [rest ->].
    exists (" " +:+ s +:+ rest). by rewrite !string_app_assoc.
Qed.

Lemma accounted_snoc sd ms s :
  (sd = None ∨ ms ≠ []) →
  accounted encoding (Group sd (ms ++ [s]))
  = accounted encoding (Group sd ms) + count s.
Proof.
  intros Hsd. unfold accounted. cbn [seed members].
  destruct sd as [sd|].
  - destruct ms as [|s1 ms]; [by destruct Hsd|].
    cbn [app]. rewrite fmap_app. change (count <$> [s]) with [count s].
    rewrite sum_snoc. lia.
  - rewrite fmap_app. change (count <$> [s]) with [count s].
    by rewrite sum_snoc.
Qed.

Lemma sentences_of_pieces_cons p ps :
  sentences_of_pieces (p :: ps)
  = (if decide (strip p = "") then [] else [strip p +:+ "."])
    ++ sentences_of_pieces ps.
Proof.
  unfold sentences_of_pieces. rewrite filter_cons.
  destruct (decide (strip p = "")) as [Hp|Hp].
  - by rewrite decide_False by (by intros []).
  - by rewrite decide_True.
Qed.

(** One iteration of the loop keeps the invariant. *)
Lemma chunk_step_inv p processed st closed open :
  inv processed st closed open →
  ∃ closed' open',
    inv (processed ++ (if decide (strip p = "") then [] else [strip p +:+ "."]))
      (step st p) closed' open'.
Proof.
  intros [Hcover Htexts Hbuf Htok Hseeds Hclosed Hopen].
  unfold chunk_step, truthy.
  destruct (decide (strip p = "")) as [Hblank|Hblank].
  { rewrite bool_decide_eq_true_2 by done. simpl.
    exists closed, open. rewrite app_nil_r. by split. }
  rewrite (bool_decide_eq_false_2 _ Hblank). simpl.
  set (s := strip p +:+ ".").
  destruct ((CHUNK_SIZE config <? current_tokens st + count s)
            && negb (bool_decide (current_chunk st = ""))) eqn:Hbranch.
  - (* the buffer is emitted and a seeded one is started *)
    apply andb_true_iff in Hbranch as [_ Hcur].
    apply negb_true_iff, bool_decide_eq_false_1 in Hcur.
    destruct Hopen as [[-> ->]|Hok]; [by rewrite Hbuf in Hcur|].
    exists (closed ++ [open]), (Group (seed_from config encoding open) [s]).
    split; simpl.
    + rewrite fmap_app, concat_app. simpl. rewrite app_nil_r.
      destruct open as [sd ms]. simpl in *. by rewrite Hcover.
    + rewrite !fmap_app, Htexts. simpl. by rewrite Hbuf.
    + by rewrite Hbuf.
    + unfold accounted. simpl. rewrite Hbuf. unfold seed_from. lia.
    + rewrite fmap_app, Hseeds, fmap_app. done.
    + apply Forall_app. split; [done|]. by apply Forall_singleton.
    + right. repeat split; simpl; [done| |by right].
      apply Forall_singleton, sentence_nonblank.
  - (* the sentence is appended to the buffer *)
    exists closed, (Group (seed open) (members open ++ [s])).
    assert (seed open = None ∨ members open ≠ []) as Hsd.
    { destruct Hopen as [[-> _]|(Hne & _)]; [by left|by right]. }
    split; simpl.
    + by rewrite app_assoc, Hcover.
    + done.
    + rewrite buffer_of_snoc, Hbuf. by destruct open.
    + rewrite accounted_snoc, Htok by done. by destruct open.
    + rewrite fmap_app in Hseeds |- *. done.
    + done.
    + right. split; [by destruct (members open)|]. split.
      * apply Forall_app. split; [|apply Forall_singleton, sentence_nonblank].
        destruct Hopen as [[-> _]|(_ & Hall & _)]; [by constructor|done].
      * destruct Hopen as [[-> _]|Hok]; [by right|].
        left. rewrite accounted_snoc by done.
        replace (Group (seed open) (members open)) with open by (by destruct open).
        rewrite <- Htok.
        apply andb_false_iff in Hbranch as [Hsize|Hcur].
        -- apply Z.ltb_ge in Hsize. done.
        -- apply negb_false_iff, bool_decide_eq_true_1 in Hcur.
           apply group_ok_nonblank, all_space_nonempty in Hok.
           by rewrite Hbuf in Hcur.
Qed.

(** The loop keeps the invariant. *)
Lemma chunk_loop_inv pieces processed st closed open :
  inv processed st closed open →
  ∃ closed' open',
    inv (processed ++ sentences_of_pieces pieces) (fold_left step pieces st)
      closed' open'.
Proof.
  revert processed st closed open.
  induction pieces as [|p ps IH]; intros processed st closed open Hinv; simpl.
  - exists closed, open. by rewrite app_nil_r.
  - destruct (chunk_step_inv p _ _ _ _ Hinv) as (closed1 & open1 & Hinv1).
    destruct (IH _ _ _ _ Hinv1) as (closed2 & open2 & Hinv2).
    exists closed2, open2.
    by rewrite sentences_of_pieces_cons, app_assoc.
Qed.

Lemma chunk_inv_init : inv [] loop_init [] (Group None []).
Proof. split; simpl; try done. by left. Qed.

(** For a positive overlap, [_get_overlap_text] is the text itself when it
    has no more tokens than the overlap, and the decoding of its last
    [overlap_tokens] tokens otherwise. *)
Lemma get_overlap_text_spec text (overlap_tokens : Z) :
  0 < overlap_tokens →
  let tokens := encode encoding text in
  let n := Z.to_nat overlap_tokens in
  if decide (length tokens ≤ n)%nat
  then _get_overlap_text encoding text overlap_tokens = text
  else _get_overlap_text encoding text overlap_tokens
       = decode encoding (drop (length tokens - n) tokens)
       ∧ length (drop (length tokens - n) tokens) = n.
Proof.
  intros Hpos tokens n. unfold _get_overlap_text. fold tokens.
  destruct (decide (length tokens ≤ n)%nat) as [Hle|Hgt].
  - rewrite (proj2 (Z.leb_le _ _)) by lia. done.
  - rewrite (proj2 (Z.leb_gt _ _)) by lia. unfold slice_from.
    rewrite (proj2 (Z.ltb_lt _ _)) by lia.
    replace (Z.to_nat (Z.max 0 (Z.of_nat (length tokens) + - overlap_tokens)))
      with (length tokens - n)%nat by lia.
    split; [done|]. rewrite length_drop. lia.
Qed.

(** With [overlap_tokens = 0] the slice [tokens[-0:]] is the whole list. *)
Lemma get_overlap_text_zero text :
  encode encoding text ≠ [] →
  _get_overlap_text encoding text 0 = decode encoding (encode encoding text).
Proof.
  intros Hne. unfold _get_overlap_text.
  destruct (encode encoding text) as [|t ts]; [done|].
  rewrite (proj2 (Z.leb_gt _ _)) by (simpl; lia). done.
Qed.

Lemma count_nonneg s : 0 ≤ count s.
Proof. unfold count_tokens. lia. Qed.

Lemma sum_counts_nonneg (ms : list string) : 0 ≤ foldr Z.add 0 (count <$> ms).
Proof.
  induction ms as [|m ms IH]; [done|].
  change (0 ≤ count m + foldr Z.add 0 (count <$> ms)).
  pose proof (count_nonneg m). lia.
Qed.

Lemma count_le_sum (ms : list string) s :
  s ∈ ms → count s ≤ foldr Z.add 0 (count <$> ms).
Proof.
  induction 1 as [s ms|s s' ms _ IH].
  - change (count s ≤ count s + foldr Z.add 0 (count <$> ms)).
    pose proof (sum_counts_nonneg ms). lia.
  - change (count s ≤ count s' + foldr Z.add 0 (count <$> ms)).
    pose proof (count_nonneg s'). lia.
Qed.

(** A sentence that is not the first of its group was appended to a buffer
    that had room for it. *)
Lemma group_ok_tail g :
  ok g → Forall (λ s, count s ≤ CHUNK_SIZE config) (tail (members g)).
Proof.
  intros (_ & _ & Hacc). destruct g as [sd [|s1 ms]]; simpl in *; [done|].
  destruct Hacc as [Hacc|Hone]; [|by destruct ms].
  apply Forall_forall. intros s Hs. apply count_le_sum in Hs.
  unfold accounted in Hacc. simpl in Hacc.
  destruct sd as [sd|].
  - pose proof (count_nonneg (sd +:+ " " +:+ s1)). lia.
  - change (count s1 + foldr Z.add 0 (count <$> ms) ≤ CHUNK_SIZE config) in Hacc.
    pose proof (count_nonneg s1). lia.
Qed.

(** What the loop and the flush produce: one group per chunk. The seed of
    the first group is absent and the seed of any other group is taken from
    the buffer of the group before it. *)
Lemma chunk_text_groups (text : string) :
  ∃ groups : list group,
    concat (members <$> groups) = sentences_of text
    ∧ Models.chunk_text
        <$> chunk_text config encoding utcnow document_id filename page_mapping text
      = (λ g, strip (buffer_of g)) <$> groups
    ∧ Forall ok groups
    ∧ (∀ i g', groups !! i = Some g' →
         seed g' = match i with
                   | O => None
                   | S j => groups !! j ≫= seed_from config encoding
                   end).
Proof.
  unfold chunk_text, flush, sentences_of.
  destruct (chunk_loop_inv (split "." text) [] loop_init [] (Group None [])
              chunk_inv_init) as (closed & open & Hinv).
  destruct Hinv as [Hcover Htexts Hbuf Htok Hseeds Hclosed Hopen].
  simpl in Hcover.
  set (st := fold_left step (split "." text) loop_init) in *.
  destruct Hopen as [[-> ->]|Hok].
  - (* no sentence at all *)
    exists []. rewrite Hbuf. simpl in *. by repeat split.
  - exists (closed ++ [open]).
    pose proof (strip_nonblank _ (group_ok_nonblank _ Hok)) as Hstrip.
    unfold truthy. rewrite Hbuf, (bool_decide_eq_false_2 _ Hstrip). simpl.
    split.
    { rewrite fmap_app, concat_app. simpl. by rewrite app_nil_r. }
    split.
    { rewrite !fmap_app, Htexts. simpl. by rewrite Hbuf. }
    split.
    { apply Forall_app. split; [done|]. by apply Forall_singleton. }
    intros i g' Hg'.
    apply (f_equal (λ l, l !! i)) in Hseeds.
    rewrite list_lookup_fmap, Hg' in Hseeds. simpl in Hseeds.
    destruct i as [|j]; simpl in Hseeds; [congruence|].
    assert (j < length closed)%nat as Hj.
    { apply lookup_lt_Some in Hg'. rewrite length_app in Hg'. simpl in Hg'. lia. }
    rewrite lookup_app_l by done.
    rewrite list_lookup_fmap in Hseeds.
    destruct (closed !! j) as [g|]; simpl in *; congruence.
Qed.

(** C4, as the chunker has it. For a positive overlap, the chunks are made
    of whole sentences: there is a list of groups, one per chunk, whose
    sentences put end to end are the sentences of the text, and the text of
    each chunk is the stripped buffer of its group (seed, then each sentence
    after one space). A group is never empty, and the count the loop tracks
    for it is at most [CHUNK_SIZE] unless it holds a single sentence, so a
    sentence of more than [CHUNK_SIZE] tokens is always the first of its
    group. The first group has no seed; the seed of any other group is
    taken from the buffer of the group before it: the whole buffer when that
    has no more than [CHUNK_OVERLAP] tokens, else the decoding of its last
    [CHUNK_OVERLAP] tokens; and every buffer starts with its seed. *)
Theorem chunk_text_structure (text : string) :
  0 < CHUNK_OVERLAP config →
  ∃ groups : list group,
    concat (members <$> groups) = sentences_of text
    ∧ Models.chunk_text
        <$> chunk_text config encoding utcnow document_id filename page_mapping text
      = (λ g, strip (buffer_of g)) <$> groups
    ∧ Forall (λ g, members g ≠ []
                   ∧ (accounted encoding g ≤ CHUNK_SIZE config
                      ∨ length (members g) = 1%nat)
                   ∧ Forall (λ s, count_tokens encoding s ≤ CHUNK_SIZE config)
                       (tail (members g))
                   ∧ ∃ rest, buffer_of g = default "" (seed g) +:+ rest) groups
    ∧ (∀ g, groups !! 0%nat = Some g → seed g = None)
    ∧ (∀ i g g', groups !! i = Some g → groups !! S i = Some g' →
         let tokens := encode encoding (buffer_of g) in
         let n := Z.to_nat (CHUNK_OVERLAP config) in
         if decide (length tokens ≤ n)%nat
         then seed g' = Some (buffer_of g)
         else seed g' = Some (decode encoding (drop (length tokens - n) tokens))
              ∧ length (drop (length tokens - n) tokens) = n).
Proof.
  intros Hpos.
  destruct (chunk_text_groups text) as (groups & Hcover & Htexts & Hok & Hseeds).
  exists groups. split; [done|]. split; [done|]. split.
  { eapply Forall_impl; [exact Hok|]. intros g Hg.
    pose proof (group_ok_tail g Hg) as Htail. destruct Hg as (Hne & _ & Hacc).
    split; [done|]. split; [done|]. split; [done|].
    apply buffer_of_starts_with_seed. }
  split; [intros g Hg; exact (Hseeds 0%nat g Hg)|].
  intros i g g' Hg Hg'. cbv zeta.
  set (tokens := encode encoding (buffer_of g)).
  set (n := Z.to_nat (CHUNK_OVERLAP config)).
  rewrite (Hseeds (S i) g' Hg'), Hg. simpl. unfold seed_from.
  pose proof (get_overlap_text_spec (buffer_of g) _ Hpos) as Hspec.
  cbv zeta in Hspec. fold tokens n in Hspec.
  destruct (decide (length tokens ≤ n)%nat); [by rewrite Hspec|].
  destruct Hspec as [-> Hlen]. done.
Qed.

(** *** When the claimed token bound does hold *)

Section AdditiveCounts.
(** A tokenizer whose counts do not grow when texts are joined by a space,
    when a text is stripped, or when tokens are decoded and encoded again. *)
Hypothesis count_empty : count "" = 0.
Hypothesis count_join : ∀ a b, count (a +:+ " " +:+ b) ≤ count a + count b.
Hypothesis count_strip : ∀ a, count (strip a) ≤ count a.
Hypothesis count_decode : ∀ l, count (decode encoding l) ≤ Z.of_nat (length l).
Hypothesis overlap_range : 0 < CHUNK_OVERLAP config ≤ CHUNK_SIZE config.

Lemma count_buffer init ms :
  count (fold_left (λ buf s, buf +:+ " " +:+ s) ms init)
  ≤ count init + foldr Z.add 0 (count <$> ms).
Proof.
  revert init. induction ms as [|m ms IH]; intros init; [simpl; lia|].
  change (count (fold_left (λ buf s, buf +:+ " " +:+ s) ms (init +:+ " " +:+ m))
          ≤ count init + (count m + foldr Z.add 0 (count <$> ms))).
  specialize (IH (init +:+ " " +:+ m)). pose proof (count_join init m). lia.
Qed.

Lemma count_overlap_text text :
  count (_get_overlap_text encoding text (CHUNK_OVERLAP config))
  ≤ CHUNK_OVERLAP config.
Proof.
  pose proof (get_overlap_text_spec text _ (proj1 overlap_range)) as Hspec.
  cbv zeta in Hspec.
  destruct (decide _) as [Hle|Hgt].
  - rewrite Hspec. unfold count_tokens. lia.
  - destruct Hspec as [-> Hlen].
    etrans; [apply count_decode|]. rewrite Hlen. lia.
Qed.

Lemma count_le_longest (l : list string) s :
  s ∈ l → count s ≤ foldr Z.max 0 (count <$> l).
Proof.
  induction 1 as [s l|s s' l _ IH].
  - change (count s ≤ Z.max (count s) (foldr Z.max 0 (count <$> l))). lia.
  - change (count s ≤ Z.max (count s') (foldr Z.max 0 (count <$> l))). lia.
Qed.

(** For such a tokenizer the token count of every chunk text is at most
    [CHUNK_SIZE] plus the count of the longest sentence. *)
Lemma chunk_token_bound_additive (text : string) :
  Forall (λ c, count (Models.chunk_text c)
               ≤ CHUNK_SIZE config + longest_sentence_tokens encoding text)
    (chunk_text config encoding utcnow document_id filename page_mapping text).
Proof.
  destruct (chunk_text_groups text) as (groups & Hcover & Htexts & Hok & Hseeds).
  apply (Forall_fmap Models.chunk_text
           (λ t, count t ≤ CHUNK_SIZE config + longest_sentence_tokens encoding text)).
  rewrite Htexts. apply Forall_fmap, Forall_lookup. intros i g Hg. simpl.
  pose proof (Forall_lookup_1 _ _ _ _ Hok Hg) as (Hne & _ & Hacc).
  assert (∀ s, s ∈ members g → count s ≤ longest_sentence_tokens encoding text)
    as Hlong.
  { intros s Hs. apply count_le_longest. rewrite <- Hcover.
    apply list_elem_of_In, in_concat. exists (members g).
    split; [|by apply list_elem_of_In].
    apply list_elem_of_In, list_elem_of_fmap. exists g. split; [done|].
    by apply list_elem_of_lookup_2 in Hg. }
  assert (0 ≤ longest_sentence_tokens encoding text) as Hlong0.
  { unfold longest_sentence_tokens.
    generalize (count <$> sentences_of text). intros l.
    induction l as [|x l IH]; [done|].
    change (0 ≤ Z.max x (foldr Z.max 0 l)). lia. }
  etrans; [apply count_strip|].
  specialize (Hseeds i g Hg).
  destruct g as [sd ms]. unfold buffer_of, accounted in *. simpl in *.
  destruct ms as [|s1 ms]; [done|].
  specialize (Hlong s1 (list_elem_of_here _ _)).
  pose proof (count_buffer (default "" sd +:+ " " +:+ s1) ms) as Hbuf.
  pose proof (sum_counts_nonneg ms) as Hsum. simpl in Hbuf.
  destruct sd as [sd|]; simpl in *.
  - (* a seeded chunk *)
    destruct i as [|j]; [done|].
    destruct (groups !! j) as [g|]; [|done]. simpl in Hseeds.
    injection Hseeds as ->.
    pose proof (count_overlap_text (buffer_of g)) as Hov.
    pose proof (count_join (_get_overlap_text encoding (buffer_of g)
                              (CHUNK_OVERLAP config)) s1) as Hjoin.
    destruct Hacc as [Hacc|Hone].
    { etrans; [apply Hbuf|]. etrans; [apply Hacc|]. lia. }
    destruct ms; [|done]. simpl. etrans; [apply Hjoin|]. lia.
  - (* the first chunk *)
    pose proof (count_join "" s1) as Hjoin. rewrite count_empty in Hjoin.
    destruct Hacc as [Hacc|Hone].
    { etrans; [apply Hbuf|].
      apply Z.le_trans with (count s1 + foldr Z.add 0 (count <$> ms)).
      - apply Z.add_le_mono_r. etrans; [apply Hjoin|]. lia.
      - etrans; [apply Hacc|]. lia. }
    destruct ms; [|done]. simpl. etrans; [apply Hjoin|]. lia.
Qed.

End AdditiveCounts.

End ChunkStructure.

(** The tokenizer that counts the characters that are not white space is
    one for which the claimed bound holds. *)
Section NonspaceTokenizer.
Import Py Models DocumentProcessor ChunkSpec.

Lemma nonspace_codes_app s1 s2 :
  nonspace_codes (s1 +:+ s2) = nonspace_codes s1 ++ nonspace_codes s2.
Proof.
  induction s1 as [|c s1 IH]; [done|].
  rewrite string_app_cons. simpl. rewrite IH. by destruct (isspace c).
Qed.

Lemma nonspace_codes_lstrip s : nonspace_codes (lstrip s) = nonspace_codes s.
Proof.
  induction s as [|c s IH]; simpl; [done|].
  destruct (isspace c) eqn:Hc; simpl; [done|]. by rewrite Hc.
Qed.

Lemma nonspace_codes_rstrip s : nonspace_codes (rstrip s) = nonspace_codes s.
Proof.
  induction s as [|c s IH]; simpl; [done|].
  destruct (rstrip s) as [|c' r]; simpl in *.
  - rewrite <- IH. by destruct (isspace c) eqn:Hc; simpl; rewrite ?Hc.
  - rewrite <- IH. done.
Qed.

Lemma nonspace_codes_decode (l : list ascii) :
  (length (nonspace_codes (String.string_of_list_ascii l)) ≤ length l)%nat.
Proof.
  induction l as [|c l IH]; simpl; [done|].
  destruct (isspace c); simpl; lia.
Qed.

Lemma chunk_token_bound_nonspace config utcnow document_id filename page_mapping text :
  0 < CHUNK_OVERLAP config ≤ CHUNK_SIZE config →
  Forall (λ c, count_tokens nonspace_tokenizer (Models.chunk_text c)
               ≤ CHUNK_SIZE config
                 + longest_sentence_tokens nonspace_tokenizer text)
    (chunk_text config nonspace_tokenizer utcnow document_id filename page_mapping text).
Proof.
  intros Hrange. apply chunk_token_bound_additive; try done.
  - intros a b. unfold count_tokens. simpl.
    rewrite !nonspace_codes_app, !length_app. simpl. lia.
  - intros a. unfold count_tokens, strip. simpl.
    by rewrite nonspace_codes_rstrip, nonspace_codes_lstrip.
  - intros l. unfold count_tokens. simpl.
    pose proof (nonspace_codes_decode ((λ z, ascii_of_N (Z.to_N z)) <$> l)) as H.
    rewrite length_fmap in H. lia.
Qed.

End NonspaceTokenizer.

(** A text of six sentences and a blank piece, chunked with one token per
    character, ten tokens per chunk and two tokens of overlap. *)
Lemma chunk_text_structure_witness :
  let config := {| Models.CHUNK_SIZE := 10; Models.CHUNK_OVERLAP := 2;
                   Models.TOP_K_DEFAULT := 4; Models.MAX_HISTORY_TURNS := 5;
                   Models.EMBEDDING_MODEL := ""; Models.LLM_MODEL := "" |} in
  let text := "ab. cd. ef.gh. ij.  . kl" in
  ∃ groups : list ChunkSpec.group,
    concat (ChunkSpec.members <$> groups) = ["ab."; "cd."; "ef."; "gh."; "ij."; "kl."]
    ∧ (λ g, Py.strip (ChunkSpec.buffer_of g)) <$> groups
      = ["ab. cd. ef."; "f. gh. ij."; "j. kl."]
    ∧ Forall (λ g, ChunkSpec.accounted ChunkSpec.char_tokenizer g ≤ 10
                   ∨ length (ChunkSpec.members g) = 1%nat) groups.
Proof.
  intros config text.
  destruct (chunk_text_structure config ChunkSpec.char_tokenizer Z.of_nat
              "d1" "notes.txt" None text) as (groups & Hcover & Htexts & Hok & _).
  { simpl. lia. }
  exists groups. split; [exact Hcover|]. split; [by rewrite <- Htexts|].
  eapply Forall_impl; [exact Hok|]. by intros g (_ & Hacc & _ & _).
Defined.

(** C4 as stated fails. With one token per character and the default
    configuration (400 tokens per chunk, 50 of overlap), a text of 201
    two-character sentences gives a first chunk of 599 tokens, where the
    bound is 400 + 2: the loop adds up the sentences one by one and does not
    count the spaces it joins them with. *)
Lemma chunk_token_bound_as_stated_fails :
  let text := Fake.repeat_str "a." 201 in
  let cs := DocumentProcessor.chunk_text Models.default_config ChunkSpec.char_tokenizer
              Z.of_nat "d1" "notes.txt" None text in
  ∃ c, cs !! 0%nat = Some c
    ∧ DocumentProcessor.count_tokens ChunkSpec.char_tokenizer (Models.chunk_text c) = 599
    ∧ Models.CHUNK_SIZE Models.default_config
      + ChunkSpec.longest_sentence_tokens ChunkSpec.char_tokenizer text = 402
    ∧ ¬ (DocumentProcessor.count_tokens ChunkSpec.char_tokenizer (Models.chunk_text c)
         ≤ Models.CHUNK_SIZE Models.default_config
           + ChunkSpec.longest_sentence_tokens ChunkSpec.char_tokenizer text).
Proof.
  intros text cs.
  destruct (cs !! 0%nat) as [c|] eqn:Hc; [|by vm_compute in Hc].
  exists c. split; [done|].
  vm_compute in Hc. injection Hc as <-.
  split; [by vm_compute|]. split; [by vm_compute|].
  vm_compute. intros H. by apply H.
Qed.

(** * Further properties *)

(** ** Stripping *)

Section StripFacts.
Import Py PyMore ChunkSpec.

Lemma rstrip_cons_nonspace c s :
  isspace c = false → rstrip (String c s) = String c (rstrip s).
Proof. intros Hc. simpl. rewrite Hc. by destruct (rstrip s). Qed.

Lemma lstrip_cons_space c s : isspace c = true → lstrip (String c s) = lstrip s.
Proof. intros Hc. simpl. by rewrite Hc. Qed.

Lemma lstrip_cons_nonspace c s :
  isspace c = false → lstrip (String c s) = String c s.
Proof. intros Hc. simpl. by rewrite Hc. Qed.

Lemma lstrip_idem s : lstrip (lstrip s) = lstrip s.
Proof.
  induction s as [|c s IH]; [done|].
  destruct (isspace c) eqn:Hc.
  - by rewrite lstrip_cons_space.
  - by rewrite !lstrip_cons_nonspace.
Qed.

Lemma rstrip_idem s : rstrip (rstrip s) = rstrip s.
Proof.
  induction s as [|c s IH]; [done|]. simpl.
  destruct (rstrip s) as [|c' r] eqn:Hr.
  - destruct (isspace c) eqn:Hc; [done|]. simpl. by rewrite Hc.
  - change (rstrip (String c (String c' r)) = String c (String c' r)).
    simpl. simpl in IH. by rewrite IH.
Qed.

(** Stripping on the left and on the right commute. *)
Lemma lstrip_rstrip s : lstrip (rstrip s) = rstrip (lstrip s).
Proof.
  induction s as [|c s IH]; [done|].
  destruct (isspace c) eqn:Hc.
  - rewrite lstrip_cons_space by done. rewrite <- IH. simpl.
    destruct (rstrip s) as [|c' r]; [by rewrite Hc|].
    by rewrite lstrip_cons_space.
  - rewrite lstrip_cons_nonspace, rstrip_cons_nonspace by done.
    by rewrite lstrip_cons_nonspace.
Qed.

Lemma strip_idem s : strip (strip s) = strip s.
Proof.
  unfold strip. by rewrite lstrip_rstrip, lstrip_idem, rstrip_idem.
Qed.

Lemma strip_cons_space c s : isspace c = true → strip (String c s) = strip s.
Proof. intros Hc. unfold strip. by rewrite lstrip_cons_space. Qed.

Lemma strip_cons_nonspace c s :
  isspace c = false → strip (String c s) = String c (rstrip s).
Proof.
  intros Hc. unfold strip.
  by rewrite lstrip_cons_nonspace, rstrip_cons_nonspace.
Qed.

(** What is left after stripping does not start with white space. *)
Lemma lstrip_head s : lstrip s = "" ∨ ∃ c r, lstrip s = String c r ∧ isspace c = false.
Proof.
  induction s as [|c s IH]; [by left|].
  destruct (isspace c) eqn:Hc.
  - by rewrite lstrip_cons_space.
  - right. exists c, s. by rewrite lstrip_cons_nonspace.
Qed.

Lemma strip_head s : strip s = "" ∨ ∃ c r, strip s = String c r ∧ isspace c = false.
Proof.
  unfold strip. destruct (lstrip_head s) as [->|(c & r & -> & Hc)]; [by left|].
  right. exists c, (rstrip r). by rewrite rstrip_cons_nonspace.
Qed.

Lemma strip_empty_or_nonblank s : strip s = "" ∨ all_space (strip s) = false.
Proof.
  destruct (strip_head s) as [->|(c & r & -> & Hc)]; [by left|].
  right. simpl. by rewrite Hc.
Qed.

(** A string that ends in a character that is not white space is its own
    right strip. *)
Lemma rstrip_snoc_nonspace s c :
  isspace c = false → rstrip (s +:+ String c "") = s +:+ String c "".
Proof.
  intros Hc. induction s as [|c' s IH].
  - simpl. by rewrite Hc.
  - rewrite string_app_cons. simpl. rewrite IH.
    destruct s; by rewrite ?string_app_cons.
Qed.

End StripFacts.

(** ** Splitting *)

Section SplitFacts.
Import Py PyMore.

Lemma split_no_sep sep s : has_char sep s = false → split sep s = [s].
Proof.
  induction s as [|c s IH]; [done|]. simpl.
  intros [Hc Hs]%orb_false_elim. rewrite Hc, (IH Hs). done.
Qed.

Lemma split_app_sep sep s1 s2 :
  has_char sep s1 = false →
  split sep (s1 +:+ String sep s2) = s1 :: split sep s2.
Proof.
  induction s1 as [|c s1 IH]; intros Hs.
  - simpl. by rewrite bool_decide_eq_true_2.
  - simpl in Hs. apply orb_false_elim in Hs as [Hc Hs].
    rewrite string_app_cons. simpl. rewrite Hc, (IH Hs). done.
Qed.

End SplitFacts.

(** ** The answer parser: round trip and shape of the result *)

Section ParserMore.
Import Py PyMore Parser ChunkSpec.

Lemma rstrip_app_nonspace (m x : string) :
  Forall (λ c, isspace c = false) (String.list_ascii_of_string m) →
  rstrip (m +:+ x) = m +:+ rstrip x.
Proof.
  induction m as [|c m IH]; [done|].
  intros Hm. simpl in Hm. apply Forall_cons in Hm as [Hc Hm].
  by rewrite !string_app_cons, rstrip_cons_nonspace, IH.
Qed.

(** Stripping a line that starts with a marker leaves the marker in place. *)
Lemma strip_after_marker (c : ascii) (m a : string) :
  Forall (λ c, isspace c = false) (c :: String.list_ascii_of_string m) →
  strip (String c m +:+ " " +:+ a) = String c m +:+ rstrip (" " +:+ a).
Proof.
  intros Hm. pose proof Hm as [Hc _]%Forall_cons. unfold strip.
  rewrite string_app_cons, lstrip_cons_nonspace by done.
  rewrite <- string_app_cons. by apply rstrip_app_nonspace.
Qed.

(** What is captured after a marker is the stripped rest of the line. *)
Lemma strip_rest_of_line a : strip (rstrip (" " +:+ a)) = strip a.
Proof.
  unfold strip. rewrite lstrip_rstrip, rstrip_idem.
  change (" " +:+ a) with (String " " a).
  by rewrite (lstrip_cons_space " " a eq_refl).
Qed.

Lemma prefix_app (m x : string) : String.prefix m (m +:+ x) = true.
Proof.
  induction m as [|c m IH]; [by destruct x|].
  rewrite string_app_cons. simpl. by destruct (ascii_dec c c).
Qed.

Lemma str_drop_app (m x : string) : str_drop (String.length m) (m +:+ x) = x.
Proof. induction m as [|c m IH]; [done|]. by rewrite string_app_cons. Qed.

(** The loop body on a line that holds a marker and a text. *)
Lemma scan_line_answer st a :
  scan_line st ("ANSWER: " +:+ a) = ScanState (strip a) (reasoning st) InAnswer.
Proof.
  unfold scan_line, startswith.
  change ("ANSWER: " +:+ a) with ("ANSWER:" +:+ " " +:+ a).
  rewrite strip_after_marker by (repeat constructor).
  rewrite prefix_app.
  change 7%nat with (String.length "ANSWER:").
  by rewrite str_drop_app, strip_rest_of_line.
Qed.

Lemma scan_line_reasoning st r :
  scan_line st ("REASONING: " +:+ r)
  = ScanState (answer st) (strip r) InReasoning.
Proof.
  unfold scan_line, startswith.
  change ("REASONING: " +:+ r) with ("REASONING:" +:+ " " +:+ r).
  rewrite strip_after_marker by (repeat constructor).
  rewrite prefix_app.
  assert (String.prefix "ANSWER:" ("REASONING:" +:+ rstrip (" " +:+ r)) = false)
    as -> by done.
  change 10%nat with (String.length "REASONING:").
  by rewrite str_drop_app, strip_rest_of_line.
Qed.

(** X1. A reply made of an [ANSWER:] line and a [REASONING:] line, each with
    its text on the same line, is parsed back into the two texts, stripped;
    the reasoning text must not be blank. *)
Theorem parse_round_trip (a r : string) :
  has_char "010" a = false → has_char "010" r = false →
  strip r ≠ "" →
  _parse_llm_response ("ANSWER: " +:+ a +:+ NL +:+ "REASONING: " +:+ r)
  = (strip a, strip r).
Proof.
  intros Ha Hr Hne. unfold _parse_llm_response, scan.
  change ("ANSWER: " +:+ a +:+ NL +:+ "REASONING: " +:+ r)
    with (("ANSWER: " +:+ a) +:+ String "010" ("REASONING: " +:+ r)).
  rewrite split_app_sep by (simpl; exact Ha).
  rewrite split_no_sep by (simpl; exact Hr).
  cbn [fold_left]. rewrite scan_line_answer, scan_line_reasoning.
  cbn [answer reasoning]. unfold truthy.
  rewrite (bool_decide_eq_false_2 _ Hne).
  rewrite andb_false_r. cbn [negb]. by rewrite !strip_idem.
Qed.

(** A model reply in the format the prompt asks for. *)
Lemma parse_round_trip_witness :
  _parse_llm_response
    ("ANSWER: " +:+ "The sky is blue. " +:+ NL +:+ "REASONING: " +:+ " Stated in sky.txt.")
  = ("The sky is blue.", "Stated in sky.txt.").
Proof.
  exact (parse_round_trip "The sky is blue. " " Stated in sky.txt."
           eq_refl eq_refl ltac:(vm_compute; discriminate)).
Defined.

(** The captured reasoning is empty or has a character that is not white
    space. *)
Lemma scan_line_reasoning_inv st line :
  (reasoning st = "" ∨ all_space (reasoning st) = false) →
  reasoning (scan_line st line) = ""
  ∨ all_space (reasoning (scan_line st line)) = false.
Proof.
  intros Hst. unfold scan_line.
  destruct (startswith (strip line) "ANSWER:"); [done|].
  destruct (startswith (strip line) "REASONING:").
  { apply strip_empty_or_nonblank. }
  destruct (bool_decide (current_section st = InAnswer) && truthy (strip line));
    [done|].
  destruct (bool_decide (current_section st = InReasoning)); [|done].
  unfold truthy. simpl.
  destruct (decide (strip line = "")) as [Hl|Hl].
  - by rewrite (bool_decide_eq_true_2 _ Hl).
  - rewrite (bool_decide_eq_false_2 _ Hl). simpl. right.
    rewrite !all_space_app.
    destruct (strip_empty_or_nonblank line) as [? | ->]; [done|].
    by rewrite !andb_false_r.
Qed.

Lemma scan_reasoning_inv lines st :
  (reasoning st = "" ∨ all_space (reasoning st) = false) →
  reasoning (fold_left scan_line lines st) = ""
  ∨ all_space (reasoning (fold_left scan_line lines st)) = false.
Proof.
  revert st. induction lines as [|l ls IH]; intros st Hst; [done|].
  simpl. by apply IH, scan_line_reasoning_inv.
Qed.

(** X2. Whatever the reply, the reasoning returned by the parser is not
    empty, and neither field has white space at its ends. *)
Theorem parse_result_shape (raw : string) :
  (_parse_llm_response raw).2 ≠ ""
  ∧ strip (_parse_llm_response raw).1 = (_parse_llm_response raw).1
  ∧ strip (_parse_llm_response raw).2 = (_parse_llm_response raw).2.
Proof.
  unfold _parse_llm_response.
  pose proof (scan_reasoning_inv (split "010" raw) scan_init (or_introl eq_refl))
    as Hinv. fold (scan raw) in Hinv.
  destruct (negb (truthy (answer (scan raw))) && negb (truthy (reasoning (scan raw))))
    eqn:Hboth; simpl.
  { rewrite !strip_idem. by repeat split. }
  destruct (negb (truthy (reasoning (scan raw)))) eqn:Hreas; simpl.
  { rewrite !strip_idem. by repeat split. }
  rewrite !strip_idem. split; [|done].
  apply negb_false_iff in Hreas. unfold truthy in Hreas.
  apply negb_true_iff, bool_decide_eq_false_1 in Hreas.
  destruct Hinv as [?|Hinv]; [done|]. by apply strip_nonblank.
Qed.

End ParserMore.

(** ** Slices and appending loops *)

Section SliceFacts.
Import Py.

(** [l[-n:]] for a positive [n]: the last [n] elements, or all of [l]. *)
Lemma slice_from_neg {A} (n : Z) (l : list A) :
  0 < n → slice_from (- n) l = drop (length l - Z.to_nat n) l.
Proof.
  intros Hn. unfold slice_from.
  rewrite (proj2 (Z.ltb_lt _ _)) by lia. f_equal. lia.
Qed.

(** [l[k:]] for [k >= 0], which is what [l[-n:]] is for [n <= 0]. *)
Lemma slice_from_nonpos {A} (n : Z) (l : list A) :
  n ≤ 0 → slice_from (- n) l = drop (Z.to_nat (- n)) l.
Proof.
  intros Hn. unfold slice_from.
  by rewrite (proj2 (Z.ltb_ge _ _)) by lia.
Qed.

Lemma slice_from_neg_length {A} (n : Z) (l : list A) :
  0 < n → length (slice_from (- n) l) = Nat.min (Z.to_nat n) (length l).
Proof. intros Hn. rewrite slice_from_neg, length_drop by done. lia. Qed.

Lemma slice_from_neg_idem {A} (n : Z) (l : list A) :
  0 < n → slice_from (- n) (slice_from (- n) l) = slice_from (- n) l.
Proof.
  intros Hn. rewrite (slice_from_neg n (slice_from _ _)) by done.
  rewrite slice_from_neg_length by done.
  replace (Nat.min (Z.to_nat n) (length l) - Z.to_nat n)%nat with 0%nat by lia.
  done.
Qed.

Lemma slice_from_neg_nil {A} (n : Z) (l : list A) :
  0 < n → slice_from (- n) l = [] ↔ l = [].
Proof.
  intros Hn. split; [|intros ->; unfold slice_from; apply drop_nil].
  intros H. apply (f_equal length) in H.
  rewrite slice_from_neg_length in H by done. simpl in H.
  destruct l; [done|]. simpl in H. lia.
Qed.

Lemma fold_append_concat {A B} (g : A → list B) (l : list A) (init : list B) :
  fold_left (λ acc x, acc ++ g x) l init = init ++ concat (g <$> l).
Proof.
  revert init. induction l as [|x l IH]; intros init; simpl.
  - by rewrite app_nil_r.
  - by rewrite IH, <- app_assoc.
Qed.

End SliceFacts.

(** ** The suggestions *)

Section Suggestions.
Import Py Models RagChain.
Variable env : Env.

(** The words that may become topics: those of more than four characters
    in the lower-cased snippets. *)
Lemma topics_elem (references : list Reference) (T0 : gset string) (x : string) :
  x ∈ fold_left (λ (topics : gset string) ref,
                   topics ∪ list_to_set
                     (filter (λ word, (4 < String.length word)%nat)
                        (split_ws (lower (content_snippet ref)))))
        references T0 →
  x ∈ T0 ∨ ∃ ref, ref ∈ references
                  ∧ x ∈ split_ws (lower (content_snippet ref))
                  ∧ (4 < String.length x)%nat.
Proof.
  revert T0. induction references as [|ref refs IH]; intros T0 Hx; simpl in Hx.
  - by left.
  - apply IH in Hx as [Hx|(ref' & Hin & Hw & Hlen)].
    + apply elem_of_union in Hx as [Hx|Hx]; [by left|].
      apply elem_of_list_to_set, list_elem_of_filter in Hx as [Hlen Hw].
      right. exists ref. split; [left|done].
    + right. exists ref'. split; [by right|done].
Qed.

(** X3. When iterating a set yields only its elements, every suggestion is
    one of the three fixed prompts or "Tell me more about " followed by a
    word of more than four characters from the lower-cased snippet of one of
    the references. *)
Theorem suggestions_provenance (question answer : string)
    (references : list Reference) (s : string) :
  (∀ (T : gset string) x, x ∈ set_order env T → x ∈ T) →
  s ∈ _generate_suggestions env question answer references →
  s ∈ ["How does this relate to other aspects mentioned in the documents?";
       "What are the implications of this?";
       "What happened before or after this?"]
  ∨ ∃ ref word, ref ∈ references
      ∧ word ∈ split_ws (lower (content_snippet ref))
      ∧ (4 < String.length word)%nat
      ∧ s = "Tell me more about " +:+ word.
Proof.
  intros Hsound Hs. unfold _generate_suggestions in Hs.
  apply elem_of_take in Hs as (i & Hs & _). apply list_elem_of_lookup_2 in Hs.
  rewrite (fold_append_concat (λ topic, ["Tell me more about " +:+ topic])) in Hs.
  apply elem_of_app in Hs as [Hs|Hs].
  - left.
    destruct (contains "what" (lower question)),
             (contains "why" (lower question)),
             (contains "when" (lower question));
      apply list_elem_of_In in Hs; apply list_elem_of_In; simpl in *; tauto.
  - right. apply list_elem_of_In, in_concat in Hs as (l & Hl & Hs).
    apply list_elem_of_In, list_elem_of_fmap in Hl as (topic & -> & Htopic).
    apply list_elem_of_In, list_elem_of_singleton in Hs as ->.
    apply elem_of_take in Htopic as (j & Htopic & _).
    apply list_elem_of_lookup_2, Hsound, topics_elem in Htopic
      as [Htopic|(ref & Href & Hw & Hlen)]; [by apply elem_of_empty in Htopic|].
    by exists ref, topic.
Qed.

(** X4. A question without "what", "why" or "when" and references whose
    snippets have no word of more than four characters get no suggestion at
    all. *)
Theorem suggestions_empty (question answer : string) (references : list Reference) :
  (∀ (T : gset string) x, x ∈ set_order env T → x ∈ T) →
  contains "what" (lower question) = false →
  contains "why" (lower question) = false →
  contains "when" (lower question) = false →
  Forall (λ ref, Forall (λ word, (String.length word ≤ 4)%nat)
                   (split_ws (lower (content_snippet ref)))) references →
  _generate_suggestions env question answer references = [].
Proof.
  intros Hsound Hwhat Hwhy Hwhen Hshort.
  destruct (_generate_suggestions env question answer references) as [|s l] eqn:E;
    [done|].
  assert (s ∈ _generate_suggestions env question answer references) as Hs
    by (rewrite E; left).
  clear E. unfold _generate_suggestions in Hs.
  rewrite Hwhat, Hwhy, Hwhen in Hs.
  apply elem_of_take in Hs as (i & Hs & _). apply list_elem_of_lookup_2 in Hs.
  rewrite (fold_append_concat (λ topic, ["Tell me more about " +:+ topic])) in Hs.
  simpl in Hs.
  apply list_elem_of_In, in_concat in Hs as (l' & Hl & _).
  apply list_elem_of_In, list_elem_of_fmap in Hl as (topic & _ & Htopic).
  apply elem_of_take in Htopic as (j & Htopic & _).
  apply list_elem_of_lookup_2, Hsound, topics_elem in Htopic
    as [Htopic|(ref & Href & Hw & Hlen)]; [by apply elem_of_empty in Htopic|].
  rewrite Forall_forall in Hshort. specialize (Hshort ref Href).
  rewrite Forall_forall in Hshort. specialize (Hshort topic Hw). lia.
Qed.

End Suggestions.

(** The iteration order of the examples yields only elements of the set. *)
Lemma fake_set_order_sound reply (T : gset string) x :
  x ∈ RagChain.set_order (Fake.env reply) T → x ∈ T.
Proof. simpl. by rewrite elem_of_elements. Qed.

(** A "what" question over one snippet. *)
Lemma suggestions_provenance_witness :
  let refs := [ {| Models.document := "sky.txt"; Models.page := Some 0;
                   Models.ref_chunk_id := "d1_chunk_0";
                   Models.content_snippet := "The sky is blue.";
                   Models.relevance_score := PrimFloat.one |} ] in
  RagChain._generate_suggestions (Fake.env (Py.Raise "")) "What color is the sky?" "" refs
  = ["How does this relate to other aspects mentioned in the documents?";
     "Tell me more about blue."]
  ∧ ∃ ref word, ref ∈ refs
      ∧ word ∈ Py.split_ws (Py.lower (Models.content_snippet ref))
      ∧ (4 < String.length word)%nat
      ∧ "Tell me more about blue." = "Tell me more about " +:+ word.
Proof.
  intros refs. split; [by vm_compute|].
  destruct (suggestions_provenance (Fake.env (Py.Raise "")) "What color is the sky?" ""
              refs "Tell me more about blue."
              (fake_set_order_sound (Py.Raise ""))) as [H|H].
  - vm_compute. right. left.
  - exfalso. apply list_elem_of_In in H. simpl in H.
    destruct H as [H|[H|[H|[]]]]; discriminate H.
  - exact H.
Defined.

(** A short question over a snippet of short words. *)
Lemma suggestions_empty_witness :
  let refs := [ {| Models.document := "a.txt"; Models.page := Some 0;
                   Models.ref_chunk_id := "d1_chunk_0";
                   Models.content_snippet := "It is red.";
                   Models.relevance_score := PrimFloat.one |} ] in
  RagChain._generate_suggestions (Fake.env (Py.Raise "")) "Is it red?" "" refs = [].
Proof.
  intros refs.
  apply (suggestions_empty (Fake.env (Py.Raise "")) "Is it red?" "" refs
           (fake_set_order_sound (Py.Raise ""))); try reflexivity.
  vm_compute. repeat constructor.
Defined.

(** ** The prompt *)

Section Prompt.
Import Py Models RagChain PromptSpec.

(** X5. Only the last three turns of the history reach the prompt. *)
Theorem prompt_uses_last_three_turns (question : string)
    (history : list ConversationTurn) (retrieved : list Retrieved) :
  _build_context_prompt question history retrieved
  = _build_context_prompt question (slice_from (-3) history) retrieved.
Proof.
  unfold _build_context_prompt.
  change (-3) with (Z.opp 3).
  rewrite slice_from_neg_idem by lia.
  destruct history as [|t h]; [done|].
  destruct (slice_from (Z.opp 3) (t :: h)) as [|t' h'] eqn:E; [|done].
  by apply slice_from_neg_nil in E.
Qed.

(** A loop whose body only appends keeps what the list started with. *)
Lemma fold_left_appends {A B} (f : list B → A → list B) (l : list A) (init : list B) :
  (∀ acc x, ∃ ext, f acc x = acc ++ ext) →
  ∃ ext, fold_left f l init = init ++ ext.
Proof.
  intros Hf. revert init. induction l as [|x l IH]; intros init; simpl.
  - exists []. by rewrite app_nil_r.
  - destruct (Hf init x) as [e1 ->]. destruct (IH (init ++ e1)) as [e2 ->].
    exists (e1 ++ e2). by rewrite app_assoc.
Qed.

Lemma join_cons p parts : join NL (p :: parts) = p +:+ prompt_tail parts.
Proof.
  revert p. induction parts as [|q parts IH]; intros p.
  - simpl. by rewrite string_app_nil_r.
  - change (join NL (p :: q :: parts)) with (p +:+ NL +:+ join NL (q :: parts)).
    by rewrite IH.
Qed.

Lemma prompt_tail_app l1 l2 :
  prompt_tail (l1 ++ l2) = prompt_tail l1 +:+ prompt_tail l2.
Proof.
  induction l1 as [|p l1 IH]; [done|].
  simpl. by rewrite IH, !string_app_assoc.
Qed.

(** X6. Whatever the history and the evidence, the prompt starts with the
    preamble and ends with the current question followed by the instruction
    block, which carries the [ANSWER:] / [REASONING:] format. *)
Theorem prompt_frame (question : string) (history : list ConversationTurn)
    (retrieved : list Retrieved) :
  ∃ middle,
    _build_context_prompt question history retrieved
    = "You are a helpful assistant that answers questions based on provided documents."
      +:+ middle
      +:+ NL +:+ NL +:+ "## Current Question:" +:+ NL +:+ question
      +:+ NL +:+ instructions.
Proof.
  unfold _build_context_prompt.
  set (preamble := "You are a helpful assistant that answers questions based on provided documents.").
  match goal with
  | |- ∃ middle, join NL ((?P ++ [_]) ++ [_]) = _ =>
      assert (∃ M, P = preamble :: M) as [M ->]
  end.
  { destruct history, retrieved;
      repeat match goal with
        | |- context [fold_left ?f ?l ?i] =>
            destruct (fold_left_appends f l i) as [? ->];
            [intros ? [? [[[? ?] ?] ?]] || intros ? ?; eexists; reflexivity|]
        end;
      simpl; eexists; reflexivity. }
  exists (prompt_tail M).
  rewrite <- !app_comm_cons, <- app_assoc, join_cons, prompt_tail_app.
  simpl. by rewrite !string_app_assoc, !string_app_nil_r.
Qed.

End Prompt.

(** ** The references: bounded snippets *)

Section Snippets.
Import Py Models RagChain.
Variable env : Env.

(** X7. No snippet is longer than 153 characters, and a reference whose
    metadata lacks the file name gets the document name "Unknown". *)
Theorem snippets_bounded (retrieved : list Retrieved) (answer : string) :
  Forall (λ r, (String.length (content_snippet r) ≤ 153)%nat)
    (_extract_references env retrieved answer)
  ∧ ∀ i chunk_id content metadata score r,
      retrieved !! i = Some (chunk_id, content, metadata, score) →
      _extract_references env retrieved answer !! i = Some r →
      md_filename metadata = None → document r = "Unknown".
Proof.
  rewrite extract_references_fmap. split.
  - apply Forall_fmap, Forall_forall. intros [[[chunk_id content] metadata] score] _.
    unfold compose. cbn [content_snippet].
    destruct (150 <? String.length content)%nat eqn:Hlen.
    + rewrite string_app_length, str_take_length.
      change (String.length "...") with 3%nat. lia.
    + apply Nat.ltb_ge in Hlen. lia.
  - intros i chunk_id content metadata score r Hi Hr Hname.
    rewrite list_lookup_fmap, Hi in Hr. simpl in Hr.
    injection Hr as <-. simpl. by rewrite Hname.
Qed.

End Snippets.

(** A hit whose metadata has no file name. *)
Lemma snippets_bounded_witness :
  let md := {| Models.md_document_id := None; Models.md_filename := None;
               Models.md_page_number := None; Models.md_upload_timestamp := None |} in
  let refs := RagChain._extract_references (Fake.env (Py.Raise ""))
                [("d1_chunk_0", Fake.repeat_str "ab" 100, md, PrimFloat.one)] "" in
  Forall (λ r, (String.length (Models.content_snippet r) ≤ 153)%nat) refs
  ∧ Models.document <$> refs = ["Unknown"].
Proof.
  intros md refs.
  destruct (snippets_bounded (Fake.env (Py.Raise ""))
              [("d1_chunk_0", Fake.repeat_str "ab" 100, md, PrimFloat.one)] "")
    as [Hlen Hname].
  split; [exact Hlen|].
  destruct (refs !! 0%nat) as [r|] eqn:Hr; [|by vm_compute in Hr].
  pose proof (Hname 0%nat _ _ _ _ r eq_refl Hr eq_refl) as Hdoc.
  vm_compute in Hr. injection Hr as <-. reflexivity.
Defined.

(** ** The conversation store: reads and appends *)

Section HistoryReads.
Import Py Models Database.
Variable config : Config.

(** A history read, for any limit: one [find_one], no write, and the slice
    [conversations[-limit:]] of what is stored for the user. *)
Lemma run_get_conversation_history (uid : string) (limit : option Z) (s : Store) :
  run (get_conversation_history config uid limit) s
  = (slice_from (- default (MAX_HISTORY_TURNS config) limit) (stored_history uid s),
     s, [CmdFindOne uid]).
Proof.
  unfold get_conversation_history, stored_history. simpl.
  destruct (find_one uid s); simpl; [done|].
  unfold slice_from. by rewrite drop_nil.
Qed.

(** X8. With a positive limit, [get_conversation_history] returns the most
    recent turns stored for the user, oldest first and at most [limit] of
    them (all of them when fewer are stored, none for an unknown user); it
    reads once and writes nothing. *)
Theorem history_read_recent (uid : string) (limit : option Z) (s : Store) :
  let L := default (MAX_HISTORY_TURNS config) limit in
  0 < L →
  let '(history, s', log) := run (get_conversation_history config uid limit) s in
  history = drop (length (stored_history uid s) - Z.to_nat L) (stored_history uid s)
  ∧ length history = Nat.min (Z.to_nat L) (length (stored_history uid s))
  ∧ (find_one uid s = None → history = [])
  ∧ s' = s
  ∧ log = [CmdFindOne uid].
Proof.
  intros L HL. rewrite run_get_conversation_history. fold L.
  split; [by apply slice_from_neg|]. split; [by apply slice_from_neg_length|].
  split; [|done].
  intros Hnone. unfold stored_history. rewrite Hnone. simpl.
  unfold slice_from. by rewrite drop_nil.
Qed.

(** X9. With a limit of zero the slice [conversations[-0:]] is the whole
    list, so the read returns every stored turn; with a negative limit [-k]
    it returns all but the first [k] turns. *)
Theorem history_read_nonpositive_limit (uid : string) (limit : option Z) (s : Store) :
  let L := default (MAX_HISTORY_TURNS config) limit in
  L ≤ 0 →
  (run (get_conversation_history config uid limit) s).1.1
  = drop (Z.to_nat (- L)) (stored_history uid s)
  ∧ (L = 0 →
     (run (get_conversation_history config uid limit) s).1.1 = stored_history uid s).
Proof.
  intros L HL. rewrite run_get_conversation_history. fold L. simpl.
  split; [by apply slice_from_nonpos|].
  intros ->. done.
Qed.

(** X10. Turns stored one after the other for a user are appended in that
    order to what was stored for the user, and what is stored for any other
    user stays as it was. *)
Theorem stored_history_append_only (uid : string)
    (calls : list (ConversationTurn * datetime)) (s : Store) :
  let s' := fold_left (λ s '(turn, now),
                         (run (store_conversation_turn uid turn now) s).1.2)
              calls s in
  stored_history uid s' = stored_history uid s ++ (fst <$> calls)
  ∧ ∀ uid', uid ≠ uid' → stored_history uid' s' = stored_history uid' s.
Proof.
  revert s. induction calls as [|[turn now] calls IH]; intros s; cbv zeta.
  - simpl. by rewrite app_nil_r.
  - cbn [fold_left].
    change ((run (store_conversation_turn uid turn now) s).1.2)
      with (update_one_push uid turn now s).
    destruct (IH (update_one_push uid turn now s)) as [Hsame Hother].
    cbn [fmap list_fmap fst]. split.
    + rewrite Hsame, stored_history_push, <- app_assoc. done.
    + intros uid' Hne. rewrite (Hother uid' Hne).
      by apply stored_history_push_other.
Qed.

End HistoryReads.

(** Three stored turns read with the default limit of five, and with two. *)
Lemma history_read_recent_witness :
  let turn q := {| Models.question := q; Models.turn_answer := "";
                   Models.turn_references := []; Models.timestamp := 0 |} in
  let s := [ {| Database.user_id := "u1";
                Database.conversations := [turn "q1"; turn "q2"; turn "q3"];
                Database.last_updated := 0 |} ] in
  (Database.run (Database.get_conversation_history Models.default_config "u1" None) s).1.1
  = [turn "q1"; turn "q2"; turn "q3"]
  ∧ (Database.run (Database.get_conversation_history Models.default_config "u1" (Some 2)) s).1.1
    = [turn "q2"; turn "q3"].
Proof.
  intros turn s. split.
  - pose proof (history_read_recent Models.default_config "u1" None s) as H.
    cbv zeta in H.
    destruct (Database.run _ s) as [[history s'] log].
    destruct H as (-> & _); [simpl; lia|]. reflexivity.
  - pose proof (history_read_recent Models.default_config "u1" (Some 2) s) as H.
    cbv zeta in H.
    destruct (Database.run _ s) as [[history s'] log].
    destruct H as (-> & _); [simpl; lia|]. reflexivity.
Defined.

(** The same store read with a limit of zero. *)
Lemma history_read_nonpositive_limit_witness :
  let turn q := {| Models.question := q; Models.turn_answer := "";
                   Models.turn_references := []; Models.timestamp := 0 |} in
  let s := [ {| Database.user_id := "u1";
                Database.conversations := [turn "q1"; turn "q2"; turn "q3"];
                Database.last_updated := 0 |} ] in
  (Database.run (Database.get_conversation_history Models.default_config "u1" (Some 0)) s).1.1
  = [turn "q1"; turn "q2"; turn "q3"].
Proof.
  intros turn s.
  exact (proj2 (history_read_nonpositive_limit Models.default_config "u1" (Some 0) s
                  ltac:(simpl; lia)) eq_refl).
Defined.

(** Two turns stored for one user next to another user's document. *)
Lemma stored_history_append_only_witness :
  let turn q := {| Models.question := q; Models.turn_answer := "";
                   Models.turn_references := []; Models.timestamp := 0 |} in
  let s := [ {| Database.user_id := "u2";
                Database.conversations := [turn "other"];
                Database.last_updated := 0 |} ] in
  let s' := fold_left (λ s '(t, now),
                         (Database.run (Database.store_conversation_turn "u1" t now) s).1.2)
              [(turn "q1", 1); (turn "q2", 2)] s in
  Database.stored_history "u1" s' = [turn "q1"; turn "q2"]
  ∧ Database.stored_history "u2" s' = [turn "other"].
Proof.
  intros turn s s'.
  destruct (stored_history_append_only "u1" [(turn "q1", 1); (turn "q2", 2)] s)
    as [Hsame Hother].
  split; [exact Hsame|]. exact (Hother "u2" ltac:(discriminate)).
Defined.

(** ** The orchestrator: what a call stores and shows *)

Section OrchestratorMore.
Import Py Models Database VectorStore RagChain RagSpec.
Variable config : Config.
Variable backend : Backend.
Variable env : Env.
Variable coll : collection backend.

Local Abbreviation ask := (answer_question config backend env coll).
Local Abbreviation search := (similarity_search config backend coll).

(** X11. When evidence is found and the reply is parsed into [(a, r)], the
    call answers with [a] and [r] and stores exactly one turn for the user,
    after what was stored before: the question, the answer and the
    references of the response. Its store commands are the history read and
    that one push. *)
Theorem success_stores_one_turn (user_id question : string) (top_k : Z)
    (s : Store) (a r : string) :
  search question top_k ≠ [] →
  generate_and_parse config env
    (_build_context_prompt question (history_read config user_id s)
       (search question top_k)) = Ok (a, r) →
  let '(response, s', log) := run (ask user_id question top_k) s in
  let turn := {| Models.question := question;
                 turn_answer := answer response;
                 turn_references := references response;
                 timestamp := utcnow env 0 |} in
  answer response = a
  ∧ reasoning response = r
  ∧ stored_history user_id s' = stored_history user_id s ++ [turn]
  ∧ log = [CmdFindOne user_id; CmdPush user_id turn (utcnow env 1)].
Proof.
  intros Hfound Hparse. rewrite run_answer_question. cbn zeta.
  destruct (search question top_k) as [|c cs]; [done|].
  rewrite Hparse. cbn [answer reasoning references].
  split; [done|]. split; [done|]. split; [|done].
  apply stored_history_push.
Qed.

(** X12. On no path does a call change what is stored for another user. *)
Theorem other_users_untouched (user_id question : string) (top_k : Z)
    (s : Store) (other : string) :
  user_id ≠ other →
  stored_history other (run (ask user_id question top_k) s).1.2
  = stored_history other s.
Proof.
  intros Hne. rewrite run_answer_question. cbn zeta.
  destruct (search question top_k) as [|c cs]; [done|].
  destruct (generate_and_parse _ _ _) as [[a r]|e]; [|done].
  by apply stored_history_push_other.
Qed.

Lemma last_drop_snoc {A} (l : list A) (x : A) (k : nat) :
  (k ≤ length l)%nat → last (drop k (l ++ [x])) = Some x.
Proof.
  intros Hk. rewrite drop_app_le by done. apply last_snoc.
Qed.

(** X13. After a call that found evidence and parsed a reply, the next
    history read for the user (with a positive [MAX_HISTORY_TURNS]) ends
    with the turn of that call. *)
Theorem answered_turn_is_latest (user_id question : string) (top_k : Z)
    (s : Store) (a r : string) :
  0 < MAX_HISTORY_TURNS config →
  search question top_k ≠ [] →
  generate_and_parse config env
    (_build_context_prompt question (history_read config user_id s)
       (search question top_k)) = Ok (a, r) →
  let '(response, s', log) := run (ask user_id question top_k) s in
  last (history_read config user_id s')
  = Some {| Models.question := question;
            turn_answer := a;
            turn_references := references response;
            timestamp := utcnow env 0 |}.
Proof.
  intros Hmax Hfound Hparse. rewrite run_answer_question. cbn zeta.
  destruct (search question top_k) as [|c cs]; [done|].
  rewrite Hparse. cbn [references].
  unfold history_read. rewrite run_get_conversation_history. cbn [fst default].
  rewrite stored_history_push, slice_from_neg by done.
  rewrite length_app. apply last_drop_snoc. simpl. lia.
Qed.

(** X14. A reply whose content is [None] makes the parse raise inside the
    [try] block: the call gives the degraded response with the message of
    that [AttributeError] and stores nothing. *)
Theorem none_content_degraded (user_id question : string) (top_k : Z) (s : Store) :
  search question top_k ≠ [] →
  chat_completions_create env (LLM_MODEL config)
    "You are a helpful document analysis assistant."
    (_build_context_prompt question (history_read config user_id s)
       (search question top_k)) 1500 = Ok None →
  run (ask user_id question top_k) s
  = (degraded_response user_id "'NoneType' object has no attribute 'split'",
     s, [CmdFindOne user_id]).
Proof.
  intros Hfound Hnone. rewrite run_answer_question. cbn zeta.
  destruct (search question top_k) as [|c cs]; [done|].
  unfold generate_and_parse. by rewrite Hnone.
Qed.

(** X15. When the question is embedded into a non-empty vector and the
    reply is parsed, the references of the response are the hits of the
    index query, one per hit and in the order the index returned them: same
    identifiers, scores [round(1 - distance, 3)]. *)
Theorem references_follow_index_order (user_id question : string) (top_k : Z)
    (s : Store) (x : float) (xs : list float) (a r : string) :
  embeddings_create backend (EMBEDDING_MODEL config) question = Ok (x :: xs) →
  generate_and_parse config env
    (_build_context_prompt question (history_read config user_id s)
       (search question top_k)) = Ok (a, r) →
  let hits := collection_query backend coll (x :: xs) top_k in
  let response := (run (ask user_id question top_k) s).1.1 in
  hits ≠ [] →
  ref_chunk_id <$> references response = (λ hit, hit.1.1.1) <$> hits
  ∧ relevance_score <$> references response
    = (λ hit, round_ndigits env (PrimFloat.sub PrimFloat.one hit.2) 3) <$> hits.
Proof.
  intros Hembed Hparse hits response Hhits. subst response.
  assert (search question top_k
          = (λ '(chunk_id, document, metadata, distance),
               (chunk_id, document, metadata, PrimFloat.sub PrimFloat.one distance))
            <$> hits) as Hsearch.
  { unfold similarity_search, get_embedding. rewrite Hembed.
    by rewrite collect_fmap. }
  rewrite run_answer_question. cbn zeta.
  destruct (search question top_k) as [|c cs] eqn:E.
  { symmetry in Hsearch. apply fmap_nil_inv in Hsearch. done. }
  rewrite Hparse. cbn [fst references].
  rewrite extract_references_fmap, Hsearch, <- !list_fmap_compose.
  split; apply list_fmap_ext; by intros _ [[[??]?]?] _.
Qed.

End OrchestratorMore.

(** A question that finds the indexed chunk and gets a well-formed reply. *)
Lemma success_stores_one_turn_witness :
  let reply := "ANSWER: Blue." +:+ Py.NL +:+ "REASONING: Stated in sky.txt." in
  let '(response, s', log) :=
    Database.run
      (RagChain.answer_question Models.default_config (Fake.backend Fake.embed_ok)
         (Fake.env (Py.Ok (Some reply))) Fake.sky_index
         "u1" "What color is the sky?" 4) [] in
  Models.answer response = "Blue."
  ∧ Models.reasoning response = "Stated in sky.txt."
  ∧ Models.turn_answer <$> Database.stored_history "u1" s' = ["Blue."]
  ∧ length log = 2%nat.
Proof.
  intros reply.
  pose proof (success_stores_one_turn Models.default_config (Fake.backend Fake.embed_ok)
                (Fake.env (Py.Ok (Some reply))) Fake.sky_index
                "u1" "What color is the sky?" 4 [] "Blue." "Stated in sky.txt.") as H.
  destruct (Database.run _ []) as [[response s'] log].
  destruct H as (Ha & Hr & Hs & Hl); [discriminate|by vm_compute|].
  rewrite Ha, Hr, Hs, Hl. simpl. by rewrite Ha.
Defined.

(** The same call next to the history of another user. *)
Lemma other_users_untouched_witness :
  let reply := "ANSWER: Blue." +:+ Py.NL +:+ "REASONING: Stated in sky.txt." in
  let s := [ {| Database.user_id := "u2"; Database.conversations := [];
                Database.last_updated := 0 |} ] in
  Database.stored_history "u2"
    (Database.run
       (RagChain.answer_question Models.default_config (Fake.backend Fake.embed_ok)
          (Fake.env (Py.Ok (Some reply))) Fake.sky_index
          "u1" "What color is the sky?" 4) s).1.2
  = [].
Proof.
  intros reply s.
  exact (other_users_untouched Models.default_config (Fake.backend Fake.embed_ok)
           (Fake.env (Py.Ok (Some reply))) Fake.sky_index
           "u1" "What color is the sky?" 4 s "u2" ltac:(discriminate)).
Defined.

(** The answered question is the last turn of the next history read. *)
Lemma answered_turn_is_latest_witness :
  let reply := "ANSWER: Blue." +:+ Py.NL +:+ "REASONING: Stated in sky.txt." in
  let '(response, s', log) :=
    Database.run
      (RagChain.answer_question Models.default_config (Fake.backend Fake.embed_ok)
         (Fake.env (Py.Ok (Some reply))) Fake.sky_index
         "u1" "What color is the sky?" 4) [] in
  Models.question <$> last (RagSpec.history_read Models.default_config "u1" s')
  = Some "What color is the sky?".
Proof.
  intros reply.
  pose proof (answered_turn_is_latest Models.default_config (Fake.backend Fake.embed_ok)
                (Fake.env (Py.Ok (Some reply))) Fake.sky_index
                "u1" "What color is the sky?" 4 [] "Blue." "Stated in sky.txt.") as H.
  destruct (Database.run _ []) as [[response s'] log].
  rewrite H; [reflexivity|simpl; lia|discriminate|by vm_compute].
Defined.

(** A reply without content. *)
Lemma none_content_degraded_witness :
  Database.run
    (RagChain.answer_question Models.default_config (Fake.backend Fake.embed_ok)
       (Fake.env (Py.Ok None)) Fake.sky_index "u1" "What color is the sky?" 4) []
  = (RagSpec.degraded_response "u1" "'NoneType' object has no attribute 'split'",
     [], [Database.CmdFindOne "u1"]).
Proof.
  apply (none_content_degraded Models.default_config (Fake.backend Fake.embed_ok)
           (Fake.env (Py.Ok None)) Fake.sky_index "u1" "What color is the sky?" 4 []);
    [discriminate|reflexivity].
Defined.

(** One hit in the index: one reference, with the identifier of the hit. *)
Lemma references_follow_index_order_witness :
  let reply := "ANSWER: Blue." +:+ Py.NL +:+ "REASONING: Stated in sky.txt." in
  Models.ref_chunk_id
    <$> Models.references
          (Database.run
             (RagChain.answer_question Models.default_config (Fake.backend Fake.embed_ok)
                (Fake.env (Py.Ok (Some reply))) Fake.sky_index
                "u1" "What color is the sky?" 4) []).1.1
  = ["d1_chunk_0"].
Proof.
  intros reply.
  destruct (references_follow_index_order Models.default_config
              (Fake.backend Fake.embed_ok) (Fake.env (Py.Ok (Some reply)))
              Fake.sky_index "u1" "What color is the sky?" 4 []
              PrimFloat.one [] "Blue." "Stated in sky.txt.") as [Hids _];
    [reflexivity|by vm_compute|discriminate|].
  rewrite Hids. reflexivity.
Defined.

(** ** The question endpoint *)

Section AskEndpoint.
Import Py Models Database VectorStore RagChain RagSpec Main.
Variable config : Config.
Variable backend : Backend.
Variable env : Env.
Variable query_error : collection backend → list float → Z → option string.
Variable coll : collection backend.

Local Abbreviation embedding_of := (get_embedding config backend).

(** Running one piece of code after another. *)
Lemma run_bind {A B} (m : db A) (f : A → db B) (s : Store) :
  run (bind m f) s
  = let '(a, s1, log1) := run m s in
    let '(b, s2, log2) := run (f a) s1 in
    (b, s2, log1 ++ log2).
Proof.
  revert s. induction m as [a|uid k IH|uid turn now k IH|uid turns now k IH];
    intros s; cbn [bind run].
  - by destruct (run (f a) s) as [[??]?].
  - rewrite IH. destruct (run (k (find_one uid s)) s) as [[a1 s1] log1].
    by destruct (run (f a1) s1) as [[??]?].
  - rewrite IH. destruct (run k _) as [[a1 s1] log1].
    by destruct (run (f a1) s1) as [[??]?].
  - rewrite IH. destruct (run k _) as [[a1 s1] log1].
    by destruct (run (f a1) s1) as [[??]?].
Qed.

(** The search with the exception agrees with the search without it
    whenever the index query returns. *)
Lemma similarity_search_returns (query : string) (top_k : Z) :
  Raising.similarity_search config backend query_error coll query top_k
  = match embedding_of query with
    | [] => Ok []
    | q =>
        match query_error coll q top_k with
        | Some e => Raise e
        | None => Ok (VectorStore.similarity_search config backend coll query top_k)
        end
    end.
Proof.
  unfold Raising.similarity_search, VectorStore.similarity_search.
  destruct (embedding_of query) as [|x xs]; [done|].
  by destruct (query_error coll (x :: xs) top_k).
Qed.

(** One call of [answer_question] with the exception: it raises after the
    history read when the search raises, and otherwise does what the
    function without the exception does. *)
Lemma run_answer_question_raising (user_id question : string) (top_k : Z) (s : Store) :
  run (Raising.answer_question config backend env query_error coll
         user_id question top_k) s
  = match Raising.similarity_search config backend query_error coll question top_k with
    | Raise e => (Raise e, s, [CmdFindOne user_id])
    | Ok _ =>
        let '(response, s', log) :=
          run (RagChain.answer_question config backend env coll
                 user_id question top_k) s in
        (Ok response, s', log)
    end.
Proof.
  rewrite run_answer_question.
  unfold Raising.answer_question, history_read, get_conversation_history.
  rewrite similarity_search_returns.
  cbn [mbind db_bind bind run].
  destruct (embedding_of question) as [|x xs] eqn:Hq.
  { assert (VectorStore.similarity_search config backend coll question top_k = [])
      as -> by (unfold VectorStore.similarity_search; by rewrite Hq).
    by destruct (find_one user_id s). }
  destruct (query_error coll (x :: xs) top_k) as [e|].
  { by destruct (find_one user_id s). }
  destruct (find_one user_id s) as [h|]; cbn [bind run fst snd];
    (destruct (VectorStore.similarity_search config backend coll question top_k)
       as [|c cs]; [reflexivity|]);
    (destruct (generate_and_parse _ _ _) as [[answer reasoning]|e]; reflexivity).
Qed.


End AskEndpoint.


(** ** The chunker: how many chunks, and what they hold *)

Section ChunkerMore.
Import Py PyMore Models DocumentProcessor ChunkSpec.
Variable config : Config.
Variable encoding : Tokenizer.
Variable utcnow : nat → datetime.
Variables (document_id filename : string).
Variable page_mapping : option (gmap string Z).

Local Abbreviation chunker :=
  (chunk_text config encoding utcnow document_id filename page_mapping).
Local Abbreviation step :=
  (chunk_step config encoding utcnow document_id filename page_mapping).
Local Abbreviation ok := (group_ok config encoding).

Lemma concat_nonempty_length {A} (ls : list (list A)) :
  Forall (λ l, l ≠ []) ls → (length ls ≤ length (concat ls))%nat.
Proof.
  induction 1 as [|l ls Hl _ IH]; simpl; [done|].
  rewrite length_app. destruct l; [done|]. simpl. lia.
Qed.

(** X17. [chunk_text] returns no chunk exactly when the text has no
    sentence (nothing but blanks between its periods), and never more chunks
    than the text has sentences. *)
Theorem chunk_count (text : string) :
  (length (chunker text) ≤ length (sentences_of text))%nat
  ∧ (chunker text = [] ↔ sentences_of text = []).
Proof.
  destruct (chunk_text_groups config encoding utcnow document_id filename
              page_mapping text) as (groups & Hcover & Htexts & Hok & _).
  assert (length (chunker text) = length groups) as Hlen.
  { apply (f_equal length) in Htexts. by rewrite !length_fmap in Htexts. }
  assert (Forall (λ l : list string, l ≠ []) (members <$> groups)) as Hne.
  { apply Forall_fmap. eapply Forall_impl; [exact Hok|]. by intros g (? & _). }
  split.
  - rewrite Hlen, <- Hcover, <- (length_fmap members). by apply concat_nonempty_length.
  - split.
    + intros Hnil. rewrite Hnil in Hlen. destruct groups; [|done].
      by rewrite <- Hcover.
    + intros Hnil. rewrite Hnil in Hcover.
      apply concat_nonempty_length in Hne. rewrite Hcover in Hne.
      rewrite length_fmap in Hne. simpl in Hne.
      destruct (chunker text); [done|]. simpl in Hlen. lia.
Qed.

(** A sentence of the loop: stripped text that is not empty, then a period. *)
Lemma sentence_shape pieces s :
  s ∈ sentences_of_pieces pieces →
  ∃ c r, s = String c r +:+ "." ∧ isspace c = false.
Proof.
  unfold sentences_of_pieces.
  intros (p & -> & Hp)%list_elem_of_fmap.
  apply list_elem_of_filter in Hp as [Hp _].
  destruct (strip_head p) as [?|(c & r & -> & Hc)]; [done|]. by exists c, r.
Qed.

Lemma buffer_join sd ms :
  ms ≠ [] → buffer_of (Group sd ms) = default "" sd +:+ " " +:+ join " " ms.
Proof.
  unfold buffer_of. simpl. generalize (default "" sd). intros init.
  revert init. induction ms as [|m ms IH]; intros init Hne; [done|].
  destruct ms as [|m' ms]; [done|].
  change (fold_left (λ buf s, buf +:+ " " +:+ s) (m :: m' :: ms) init)
    with (fold_left (λ buf s, buf +:+ " " +:+ s) (m' :: ms) (init +:+ " " +:+ m)).
  rewrite IH by done.
  change (join " " (m :: m' :: ms)) with (m +:+ " " +:+ join " " (m' :: ms)).
  by rewrite !string_app_assoc.
Qed.

(** The joined sentences start with a character that is not white space
    and end with a period. *)
Lemma join_sentences_shape pieces ms :
  ms ≠ [] → Forall (λ s, s ∈ sentences_of_pieces pieces) ms →
  ∃ c body, join " " ms = String c body +:+ "." ∧ isspace c = false.
Proof.
  induction ms as [|m ms IH]; intros Hne Hall; [done|].
  apply Forall_cons in Hall as [Hm Hall].
  destruct (sentence_shape _ _ Hm) as (c & r & -> & Hc).
  destruct ms as [|m' ms]; [by exists c, r|].
  destruct (IH ltac:(done) Hall) as (c' & body & Hj & _).
  exists c, (r +:+ "." +:+ " " +:+ String c' body). split; [|done].
  change (join " " ((String c r +:+ ".") :: m' :: ms))
    with ((String c r +:+ ".") +:+ " " +:+ join " " (m' :: ms)).
  rewrite Hj.
  repeat (rewrite string_app_assoc || rewrite string_app_cons). reflexivity.
Qed.

Lemma lstrip_before_nonspace x c y :
  isspace c = false →
  ∃ pre, lstrip (x +:+ String c y) = pre +:+ String c y
         ∧ (all_space x = true → pre = "").
Proof.
  intros Hc. induction x as [|c0 x IH].
  - exists "". change ("" +:+ String c y) with (String c y).
    by rewrite lstrip_cons_nonspace.
  - rewrite string_app_cons. destruct (isspace c0) eqn:Hc0.
    + rewrite lstrip_cons_space by done. destruct IH as (pre & -> & Hpre).
      exists pre. split; [done|]. simpl. rewrite Hc0. done.
    + rewrite lstrip_cons_nonspace by done. exists (String c0 x).
      split; [done|]. simpl. by rewrite Hc0.
Qed.

(** The text of a chunk ends with the sentences of its group, joined by
    single spaces; without a seed it is just that. *)
Lemma strip_buffer_join pieces g :
  members g ≠ [] → Forall (λ s, s ∈ sentences_of_pieces pieces) (members g) →
  ∃ pre, strip (buffer_of g) = pre +:+ join " " (members g)
         ∧ (seed g = None → pre = "").
Proof.
  destruct g as [sd ms]. simpl. intros Hne Hall.
  rewrite buffer_join by done.
  destruct (join_sentences_shape pieces ms Hne Hall) as (c & body & -> & Hc).
  unfold strip. rewrite <- string_app_assoc.
  destruct (lstrip_before_nonspace (default "" sd +:+ " ") c (body +:+ ".") Hc)
    as (pre & Hpre & Hblank).
  rewrite string_app_cons, Hpre.
  exists pre. split.
  - rewrite <- string_app_cons, <- string_app_assoc.
    by rewrite rstrip_snoc_nonspace.
  - intros ->. by apply Hblank.
Qed.

(** X18. Chunk coverage: the chunks split the sentences of the text among
    them, in order and with none left out; the text of each chunk ends with
    its own sentences joined by single spaces (what comes before is the
    overlap), and the text of the first chunk is exactly its sentences. *)
Theorem chunk_coverage (text : string) :
  ∃ parts : list (list string),
    concat parts = sentences_of text
    ∧ Forall2 (λ c ms, ms ≠ [] ∧ ∃ pre, Models.chunk_text c = pre +:+ join " " ms)
        (chunker text) parts
    ∧ (∀ c ms, chunker text !! 0%nat = Some c → parts !! 0%nat = Some ms →
               Models.chunk_text c = join " " ms).
Proof.
  destruct (chunk_text_groups config encoding utcnow document_id filename
              page_mapping text) as (groups & Hcover & Htexts & Hok & Hseeds).
  exists (members <$> groups). split; [done|].
  assert (∀ i g, groups !! i = Some g →
            members g ≠ []
            ∧ Forall (λ s, s ∈ sentences_of_pieces (split "." text)) (members g))
    as Hshape.
  { intros i g Hg. split; [by destruct (Forall_lookup_1 _ _ _ _ Hok Hg)|].
    apply Forall_forall. intros s Hs. fold (sentences_of text). rewrite <- Hcover.
    apply list_elem_of_In, in_concat. exists (members g).
    split; [|by apply list_elem_of_In].
    apply list_elem_of_In, list_elem_of_fmap. exists g. split; [done|].
    by apply list_elem_of_lookup_2 in Hg. }
  split.
  - apply Forall2_same_length_lookup. split.
    { apply (f_equal length) in Htexts. by rewrite !length_fmap in *. }
    intros i c ms Hc Hms.
    apply list_lookup_fmap_Some in Hms as (g & -> & Hg).
    destruct (Hshape i g Hg) as [Hne Hall]. split; [done|].
    apply (f_equal (λ l, l !! i)) in Htexts.
    rewrite !list_lookup_fmap, Hc, Hg in Htexts. simpl in Htexts.
    injection Htexts as ->.
    destruct (strip_buffer_join _ g Hne Hall) as (pre & -> & _). by exists pre.
  - intros c ms Hc Hms.
    apply list_lookup_fmap_Some in Hms as (g & -> & Hg).
    destruct (Hshape 0%nat g Hg) as [Hne Hall].
    apply (f_equal (λ l, l !! 0%nat)) in Htexts.
    rewrite !list_lookup_fmap, Hc, Hg in Htexts. simpl in Htexts.
    injection Htexts as ->.
    destruct (strip_buffer_join _ g Hne Hall) as (pre & -> & Hpre).
    by rewrite (Hpre (Hseeds 0%nat g Hg)).
Qed.

(** The fields every chunk of the loop carries. *)
Lemma chunk_fields_loop sentences st :
  Forall (λ c, Models.document_id c = document_id
               ∧ Models.filename c = filename
               ∧ page_number c = (if mapping_truthy page_mapping then Some 1 else None))
    (chunks st) →
  Forall (λ c, Models.document_id c = document_id
               ∧ Models.filename c = filename
               ∧ page_number c = (if mapping_truthy page_mapping then Some 1 else None))
    (chunks (fold_left step sentences st)).
Proof.
  revert st. induction sentences as [|s ss IH]; intros st Hst; [done|].
  simpl. apply IH. unfold chunk_step.
  destruct (negb (truthy (strip s))); [done|].
  destruct (_ && _); [|done]. simpl.
  apply Forall_app. split; [done|]. by apply Forall_singleton.
Qed.

Lemma chunk_basic_fields (text : string) :
  Forall (λ c, Models.document_id c = document_id
               ∧ Models.filename c = filename
               ∧ page_number c = (if mapping_truthy page_mapping then Some 1 else None))
    (chunker text).
Proof.
  unfold chunk_text, flush.
  pose proof (chunk_fields_loop (split "." text) (loop_init) (Forall_nil_2 _))
    as Hloop.
  destruct (truthy _); [|done].
  apply Forall_app. split; [done|]. by apply Forall_singleton.
Qed.

(** The identifiers of the chunks of a text, in order. *)
Lemma chunk_ids_of_text (text : string) :
  chunk_id <$> chunker text
  = ChunkIdSpec.chunk_id_of document_id <$> seq 0 (length (chunker text)).
Proof.
  unfold chunk_text, flush.
  pose proof (ids_inv_loop config encoding utcnow document_id filename page_mapping
                (split "." text) loop_init (ids_inv_init document_id)) as Hinv.
  destruct (truthy _).
  - by apply ids_inv_emit.
  - apply Hinv.
Qed.

(** X19. Every chunk carries the [document_id] and [filename] it was made
    for; its text is not empty and has no white space at its ends; its page
    is absent when no page mapping is given and 1 otherwise. *)
Theorem chunk_fields (text : string) :
  Forall (λ c, Models.document_id c = document_id
               ∧ Models.filename c = filename
               ∧ page_number c = (if mapping_truthy page_mapping then Some 1 else None)
               ∧ Models.chunk_text c ≠ ""
               ∧ strip (Models.chunk_text c) = Models.chunk_text c)
    (chunker text).
Proof.
  apply Forall_lookup. intros i c Hc.
  pose proof (Forall_lookup_1 _ _ _ _ (chunk_basic_fields text) Hc) as (Hd & Hf & Hp).
  split; [done|]. split; [done|]. split; [done|].
  destruct (chunk_text_groups config encoding utcnow document_id filename
              page_mapping text) as (groups & _ & Htexts & Hok & _).
  apply (f_equal (λ l, l !! i)) in Htexts.
  rewrite !list_lookup_fmap, Hc in Htexts. simpl in Htexts.
  destruct (groups !! i) as [g|] eqn:Hg; [|done]. simpl in Htexts.
  injection Htexts as ->.
  pose proof (Forall_lookup_1 _ _ _ _ Hok Hg) as Hokg.
  split; [|apply strip_idem].
  apply strip_nonblank. by apply (group_ok_nonblank config encoding).
Qed.

(** X20. With an overlap that is not positive the slice [tokens[-n:]] is
    not a suffix of [n] tokens: for [n = 0] it is the whole token list, so
    the overlap text is the decoding of all the tokens (the text itself,
    when decoding undoes encoding); for [n = -k] the first [k] tokens are
    left out. *)
Theorem overlap_text_nonpositive (text : string) (n : Z) :
  n ≤ 0 → encode encoding text ≠ [] →
  _get_overlap_text encoding text n
  = decode encoding (drop (Z.to_nat (- n)) (encode encoding text))
  ∧ (n = 0 → decode encoding (encode encoding text) = text →
     _get_overlap_text encoding text n = text).
Proof.
  intros Hn Hne. unfold _get_overlap_text.
  destruct (encode encoding text) as [|t ts] eqn:E; [done|].
  rewrite (proj2 (Z.leb_gt _ _)) by (simpl; lia).
  rewrite slice_from_nonpos by done.
  split; [done|]. intros -> Hround. simpl. exact Hround.
Qed.

End ChunkerMore.

(** One token per character: decoding undoes encoding. *)
Lemma char_tokenizer_round_trip (text : string) :
  DocumentProcessor.decode ChunkSpec.char_tokenizer
    (DocumentProcessor.encode ChunkSpec.char_tokenizer text) = text.
Proof.
  unfold ChunkSpec.char_tokenizer. cbn [DocumentProcessor.decode DocumentProcessor.encode].
  induction text as [|c text IH]; [done|].
  cbn [String.list_ascii_of_string fmap list_fmap String.string_of_list_ascii].
  rewrite N2Z.id, ascii_N_embedding. f_equal. exact IH.
Qed.

(** The first chunk of a short text is its first sentences, and the second
    starts with two characters of overlap. *)
Lemma chunk_coverage_witness :
  let config := {| Models.CHUNK_SIZE := 10; Models.CHUNK_OVERLAP := 2;
                   Models.TOP_K_DEFAULT := 4; Models.MAX_HISTORY_TURNS := 5;
                   Models.EMBEDDING_MODEL := ""; Models.LLM_MODEL := "" |} in
  let cs := DocumentProcessor.chunk_text config ChunkSpec.char_tokenizer Z.of_nat
              "d1" "notes.txt" None "ab. cd. ef.gh. ij.  . kl" in
  ∃ parts, concat parts = ["ab."; "cd."; "ef."; "gh."; "ij."; "kl."]
    ∧ Models.chunk_text <$> cs = ["ab. cd. ef."; "f. gh. ij."; "j. kl."]
    ∧ ∀ c ms, cs !! 0%nat = Some c → parts !! 0%nat = Some ms →
              Models.chunk_text c = Py.join " " ms.
Proof.
  intros config cs.
  destruct (chunk_coverage config ChunkSpec.char_tokenizer Z.of_nat "d1" "notes.txt"
              None "ab. cd. ef.gh. ij.  . kl") as (parts & Hcover & _ & Hfirst).
  exists parts. split; [exact Hcover|]. split; [reflexivity|]. exact Hfirst.
Defined.

(** With no overlap configured, the overlap text of a buffer is all of it. *)
Lemma overlap_text_nonpositive_witness :
  DocumentProcessor._get_overlap_text ChunkSpec.char_tokenizer " ab. cd." 0
  = " ab. cd.".
Proof.
  apply (overlap_text_nonpositive ChunkSpec.char_tokenizer " ab. cd." 0);
    [lia|discriminate|reflexivity|apply char_tokenizer_round_trip].
Defined.

(** ** The vector store adapter: what is handed to the index *)

Section AddRequest.
Import Py Models VectorStore.
Variable config : Config.
Variable backend : Backend.

(** X21. The four lists handed to [collection.add] have one entry per chunk
    and are aligned: at each position stand the identifier, the text, the
    embedding and the metadata of the same chunk, and the metadata always has
    a page number, 0 when the chunk has none. *)
Theorem add_request_aligned (chunks : list DocumentChunk) :
  let req := add_chunks_request config backend chunks in
  length (ids req) = length chunks
  ∧ length (documents req) = length chunks
  ∧ length (embeddings req) = length chunks
  ∧ length (metadatas req) = length chunks
  ∧ ∀ i c, chunks !! i = Some c →
      ids req !! i = Some (chunk_id c)
      ∧ documents req !! i = Some (chunk_text c)
      ∧ embeddings req !! i = Some (get_embedding config backend (chunk_text c))
      ∧ ∃ md, metadatas req !! i = Some md
          ∧ md_document_id md = Some (document_id c)
          ∧ md_filename md = Some (filename c)
          ∧ md_page_number md = Some (default 0 (page_number c)).
Proof.
  unfold add_chunks_request. cbn [ids documents embeddings metadatas].
  rewrite !collect_fmap, !length_fmap. repeat split; try done.
  - by rewrite list_lookup_fmap, H.
  - by rewrite list_lookup_fmap, H.
  - by rewrite !list_lookup_fmap, H.
  - eexists. rewrite list_lookup_fmap, H. simpl. by repeat split.
Qed.

(** X22. Query path: when the embedding call for the question raises, or
    returns an empty vector, the search returns no hit, whatever the index
    holds. *)
Theorem search_without_vector (coll : collection backend) (query : string) (top_k : Z) :
  ((∃ e, embeddings_create backend (EMBEDDING_MODEL config) query = Raise e)
   ∨ embeddings_create backend (EMBEDDING_MODEL config) query = Ok []) →
  similarity_search config backend coll query top_k = [].
Proof.
  intros [[e He]|He]; unfold similarity_search, get_embedding; by rewrite He.
Qed.

End AddRequest.

(** The request for the chunk of the examples. *)
Lemma add_request_aligned_witness :
  let req := VectorStore.add_chunks_request Models.default_config
               (Fake.backend Fake.embed_ok) [Fake.sky_chunk] in
  VectorStore.ids req !! 0%nat = Some "d1_chunk_0"
  ∧ VectorStore.documents req !! 0%nat = Some "The sky is blue."
  ∧ VectorStore.embeddings req !! 0%nat = Some [PrimFloat.one].
Proof.
  intros req.
  destruct (add_request_aligned Models.default_config (Fake.backend Fake.embed_ok)
              [Fake.sky_chunk]) as (_ & _ & _ & _ & H).
  destruct (H 0%nat Fake.sky_chunk eq_refl) as (Hid & Hdoc & Hemb & _).
  split; [exact Hid|]. split; [exact Hdoc|exact Hemb].
Defined.

(** A search while the embedding endpoint is down. *)
Lemma search_without_vector_witness :
  VectorStore.similarity_search Models.default_config (Fake.backend Fake.embed_down)
    Fake.sky_index "What color is the sky?" 4 = [].
Proof.
  apply search_without_vector. left. by eexists.
Defined.

(** ** File names and [process_document] *)

Section FileTypes.
Import Py PyMore Models DocumentProcessor Processing.

Lemma lower_length s : String.length (lower s) = String.length s.
Proof. induction s as [|c s IH]; simpl; [done|]. by rewrite IH. Qed.

Lemma lower_str_drop k s : lower (str_drop k s) = str_drop k (lower s).
Proof.
  revert s. induction k as [|k IH]; intros [|c s]; simpl; try done.
Qed.

(** Only the period is lowered to a period. *)
Lemma lower_char_period c : lower_char c = "."%char → c = "."%char.
Proof.
  destruct c as [[] [] [] [] [] [] [] []]; vm_compute; congruence.
Qed.

Lemma has_period_lower s :
  has_char "." (lower s) = false → has_char "." s = false.
Proof.
  induction s as [|c s IH]; simpl; [done|].
  intros [Hc Hs]%orb_false_elim. rewrite (IH Hs), orb_false_r.
  apply bool_decide_eq_false_2. intros ->.
  by apply bool_decide_eq_false_1 in Hc.
Qed.

Lemma split_nonempty sep s : split sep s ≠ [].
Proof.
  destruct s as [|c s]; simpl; [done|].
  destruct (bool_decide (c = sep)); [done|]. by destruct (split sep s).
Qed.

(** After a separator, the pieces of a text end with the pieces of what
    follows it. *)
Lemma split_app_sep_pieces sep a b :
  ∃ pre, pre ≠ [] ∧ split sep (a +:+ String sep b) = pre ++ split sep b.
Proof.
  induction a as [|c a IH].
  - exists [""]. split; [done|]. simpl. by rewrite bool_decide_eq_true_2.
  - rewrite string_app_cons. simpl. destruct IH as (pre & Hpre & ->).
    destruct (bool_decide (c = sep)); [by exists ("" :: pre)|].
    destruct pre as [|h t]; [done|]. by exists (String c h :: t).
Qed.

Lemma last_piece_app (pre l : list string) :
  l ≠ [] → last_piece (pre ++ l) = last_piece l.
Proof.
  intros Hl. unfold last_piece. induction pre as [|p pre IH]; [done|].
  simpl. rewrite IH. destruct (pre ++ l) eqn:E; [|done].
  by apply app_eq_nil in E as [_ ->].
Qed.

(** A name whose lower-cased form ends with a period and an extension
    without periods has that extension as its lower-cased last piece. *)
Lemma extension_of_suffix (s e : string) :
  has_char "." e = false →
  endswith (lower s) (String "." e) = true →
  lower (last_piece (split "." s)) = e.
Proof.
  intros He Hend. unfold endswith in Hend. apply bool_decide_eq_true_1 in Hend.
  rewrite lower_length in Hend.
  set (k := (String.length s - String.length (String "." e))%nat) in *.
  rewrite <- lower_str_drop in Hend.
  rewrite <- (str_take_drop k s).
  destruct (str_drop k s) as [|c b]; [done|].
  simpl in Hend. injection Hend as Hc Hb.
  apply lower_char_period in Hc as ->.
  rewrite <- Hb in He. apply has_period_lower in He.
  destruct (split_app_sep_pieces "." (str_take k s) b) as (pre & _ & ->).
  rewrite last_piece_app by apply split_nonempty.
  rewrite split_no_sep by done. exact Hb.
Qed.

(** X24. A file name that passes the extension check of the upload endpoint
    has a type [process_document] supports: the lower-cased piece after its
    last period is "pdf" or "txt". *)
Theorem upload_accepts_supported (filename : string) :
  upload_accepts filename = true →
  lower (last_piece (split "." filename)) = "pdf"
  ∨ lower (last_piece (split "." filename)) = "txt".
Proof.
  unfold upload_accepts. intros [H|H]%orb_true_iff.
  - left. by apply extension_of_suffix.
  - right. by apply extension_of_suffix.
Qed.

Variable config : Config.
Variable encoding : Tokenizer.
Variable utcnow : nat → datetime.
Variable ext : Extractors.

Local Abbreviation process := (process_document config encoding utcnow ext).

(** X25. How [process_document] goes by the extension of the name.  For a
    name ending in [.txt], a call that returns has chunked the UTF-8
    decoding of the content, or its Latin-1 reading when that fails, and
    counts one page.  For a name ending in [.pdf], a call fails with
    "Error processing PDF: e" when the PDF reader raises [e], and a call
    that returns has chunked the page texts joined by newlines and counts
    the pages.  In both cases the chunks are those of [chunk_text] under the
    drawn identifier, [file_size] is the length of the content and
    [total_chunks] is the number of chunks. *)
Theorem process_document_by_extension (filename file_content : string) :
  (endswith (lower filename) ".txt" = true →
   ∀ metadata cs,
     process filename file_content = Ok (metadata, cs) →
     let text := default (decode_latin1 file_content) (decode_utf8 ext file_content) in
     cs = chunk_text config encoding utcnow (uuid4 ext) filename None text
     ∧ metadata
       = {| meta_document_id := uuid4 ext; meta_filename := filename;
            file_type := "txt";
            file_size := Z.of_nat (String.length file_content);
            meta_upload_timestamp := utcnow (length cs);
            total_chunks := Z.of_nat (length cs);
            total_pages := Some 1 |})
  ∧ (endswith (lower filename) ".pdf" = true →
     (∀ e, pdf_page_texts ext file_content = Raise e →
           process filename file_content = Raise ("Error processing PDF: " +:+ e))
     ∧ ∀ metadata cs,
         process filename file_content = Ok (metadata, cs) →
         ∃ pages,
           pdf_page_texts ext file_content = Ok pages
           ∧ cs = chunk_text config encoding utcnow (uuid4 ext) filename None
                    (join NL pages)
           ∧ metadata
             = {| meta_document_id := uuid4 ext; meta_filename := filename;
                  file_type := "pdf";
                  file_size := Z.of_nat (String.length file_content);
                  meta_upload_timestamp := utcnow (length cs);
                  total_chunks := Z.of_nat (length cs);
                  total_pages := Some (Z.of_nat (length pages)) |}).
Proof.
  split; intros Hend; unfold process_document.
  - rewrite (extension_of_suffix filename "txt" eq_refl Hend). simpl.
    unfold extract_text_from_txt. intros metadata cs.
    destruct (decode_utf8 ext file_content); simpl; by intros [= <- <-].
  - rewrite (extension_of_suffix filename "pdf" eq_refl Hend). simpl.
    unfold extract_text_from_pdf. split.
    + by intros e ->.
    + intros metadata cs.
      destruct (pdf_page_texts ext file_content) as [pages|e]; [|done].
      intros [= <- <-]. by exists pages.
Qed.

(** X26. Whenever [process_document] succeeds, the metadata and the chunks
    agree: [total_chunks] is the number of chunks, every chunk carries the
    identifier and the file name of the metadata and no page, and the chunk
    identifiers are that identifier followed by [_chunk_0], [_chunk_1], ...
    in order, all different. *)
Theorem process_document_consistent (filename file_content : string)
    (metadata : DocumentMetadata) (cs : list DocumentChunk) :
  process filename file_content = Ok (metadata, cs) →
  total_chunks metadata = Z.of_nat (length cs)
  ∧ meta_filename metadata = filename
  ∧ Forall (λ c, Models.document_id c = meta_document_id metadata
                 ∧ Models.filename c = filename
                 ∧ page_number c = None) cs
  ∧ chunk_id <$> cs
    = (λ i : nat, meta_document_id metadata +:+ "_chunk_" +:+ pretty i)
      <$> seq 0 (length cs)
  ∧ NoDup (chunk_id <$> cs).
Proof.
  unfold process_document. intros Hok.
  destruct (if bool_decide (lower (last_piece (split "." filename)) = "pdf")
            then extract_text_from_pdf ext file_content
            else if bool_decide (lower (last_piece (split "." filename)) = "txt")
                 then extract_text_from_txt ext file_content
                 else Raise ("Unsupported file type: "
                               +:+ lower (last_piece (split "." filename))))
    as [[full_text total]|e]; [|done].
  injection Hok as <- <-. cbn [total_chunks meta_filename meta_document_id].
  split; [done|]. split; [done|]. split.
  { apply (chunk_basic_fields config encoding utcnow (uuid4 ext) filename None). }
  pose proof (chunk_ids_of_text config encoding utcnow (uuid4 ext) filename None
                full_text) as Hids.
  split; [exact Hids|].
  rewrite Hids. apply NoDup_fmap_2; [apply chunk_id_of_inj|apply NoDup_seq].
Qed.

End FileTypes.

(** A name with two periods and an upper-case extension. *)
Lemma upload_accepts_supported_witness :
  Py.lower (PyMore.last_piece (Py.split "." "Report.final.PDF")) = "pdf"
  ∨ Py.lower (PyMore.last_piece (Py.split "." "Report.final.PDF")) = "txt".
Proof. apply upload_accepts_supported. reflexivity. Defined.

(** A text file of two sentences, and a PDF the reader cannot open. *)
Lemma process_document_by_extension_witness :
  (∃ metadata cs,
     Processing.process_document Models.default_config ChunkSpec.char_tokenizer Z.of_nat
       FakeFiles.extractors "notes.TXT" "The sky is blue. Grass is green."
     = Py.Ok (metadata, cs)
     ∧ Models.chunk_text <$> cs = ["The sky is blue. Grass is green."]
     ∧ Processing.total_pages metadata = Some 1)
  ∧ Processing.process_document Models.default_config ChunkSpec.char_tokenizer Z.of_nat
      FakeFiles.extractors "scan.pdf" "%PDF-1.4"
    = Py.Raise "Error processing PDF: EOF marker not found".
Proof.
  split.
  - destruct (Processing.process_document Models.default_config
                ChunkSpec.char_tokenizer Z.of_nat FakeFiles.extractors "notes.TXT"
                "The sky is blue. Grass is green.") as [[metadata cs]|e] eqn:E;
      [|by vm_compute in E].
    exists metadata, cs. split; [reflexivity|].
    destruct (proj1 (process_document_by_extension Models.default_config
                       ChunkSpec.char_tokenizer Z.of_nat FakeFiles.extractors
                       "notes.TXT" "The sky is blue. Grass is green.")
                eq_refl metadata cs E) as [-> ->].
    split; reflexivity.
  - exact (proj1 (proj2 (process_document_by_extension Models.default_config
                           ChunkSpec.char_tokenizer Z.of_nat FakeFiles.extractors
                           "scan.pdf" "%PDF-1.4") eq_refl)
             "EOF marker not found" eq_refl).
Defined.

(** The same text file: one chunk, named after the drawn identifier. *)
Lemma process_document_consistent_witness :
  ∃ metadata cs,
    Processing.process_document Models.default_config ChunkSpec.char_tokenizer Z.of_nat
      FakeFiles.extractors "notes.txt" "The sky is blue. Grass is green."
    = Py.Ok (metadata, cs)
    ∧ Processing.total_chunks metadata = 1
    ∧ Models.chunk_id <$> cs = ["d1_chunk_0"].
Proof.
  destruct (Processing.process_document Models.default_config ChunkSpec.char_tokenizer
              Z.of_nat FakeFiles.extractors "notes.txt"
              "The sky is blue. Grass is green.") as [[metadata cs]|e] eqn:E;
    [|by vm_compute in E].
  exists metadata, cs. split; [reflexivity|].
  destruct (process_document_consistent Models.default_config ChunkSpec.char_tokenizer
              Z.of_nat FakeFiles.extractors _ _ metadata cs E)
    as (Htotal & _ & _ & Hids & _).
  vm_compute in E. injection E as <- <-. split; reflexivity.
Defined.

(** ** The document and chunk collections *)

Section ChunkStore.
Import Py Models DocumentStore.

Lemma find_chunk_app id l1 l2 :
  find_chunk id (l1 ++ l2)
  = match find_chunk id l1 with
    | Some ch => Some ch
    | None => find_chunk id l2
    end.
Proof.
  induction l1 as [|ch l1 IH]; simpl; [done|].
  by destruct (bool_decide (chunk_id ch = id)).
Qed.

Lemma find_chunk_unique l ch :
  NoDup (chunk_id <$> l) → ch ∈ l → find_chunk (chunk_id ch) l = Some ch.
Proof.
  induction l as [|ch' l IH]; intros Hnd Hin; [by apply elem_of_nil in Hin|].
  simpl in *. apply NoDup_cons in Hnd as [Hnotin Hnd].
  apply elem_of_cons in Hin as [->|Hin].
  - by rewrite bool_decide_eq_true_2.
  - rewrite bool_decide_eq_false_2; [by apply IH|].
    intros Heq. apply Hnotin. rewrite Heq. by apply list_elem_of_fmap_2.
Qed.

(** X27. Storing a non-empty list of chunks whose identifiers differ from
    each other and from those already stored returns one driver identifier
    per chunk and makes every one of them retrievable by [get_chunk_by_id];
    what could be retrieved before still is, and the other collections are
    untouched. An empty list is refused by [insert_many]. *)
Theorem stored_chunks_are_found (new_chunks : list DocumentChunk)
    (oid : nat → string) (c : Collections) :
  store_document_chunks [] oid c = Raise "documents must be a non-empty list"
  ∧ (new_chunks ≠ [] →
     NoDup (chunk_id <$> new_chunks) →
     (∀ ch, ch ∈ new_chunks → get_chunk_by_id (chunk_id ch) c = None) →
     ∃ c', store_document_chunks new_chunks oid c
           = Ok (oid <$> seq 0 (length new_chunks), c')
       ∧ (∀ ch, ch ∈ new_chunks → get_chunk_by_id (chunk_id ch) c' = Some ch)
       ∧ (∀ id ch, get_chunk_by_id id c = Some ch → get_chunk_by_id id c' = Some ch)
       ∧ get_documents_list c' = get_documents_list c
       ∧ conversations c' = conversations c).
Proof.
  split; [done|]. intros Hne Hnd Hfresh.
  eexists. split.
  { unfold store_document_chunks. destruct new_chunks; [done|reflexivity]. }
  unfold get_chunk_by_id in *. cbn [chunks].
  split; [|split; [|done]].
  - intros ch Hin. rewrite find_chunk_app, (Hfresh ch Hin).
    by apply find_chunk_unique.
  - intros id ch Hfound. by rewrite find_chunk_app, Hfound.
Qed.

End ChunkStore.

(** The chunk of the examples stored in an empty database. *)
Lemma stored_chunks_are_found_witness :
  let c := {| DocumentStore.documents := []; DocumentStore.chunks := [];
              DocumentStore.conversations := [] |} in
  ∃ c', DocumentStore.store_document_chunks [Fake.sky_chunk] pretty c
        = Py.Ok (["0"], c')
    ∧ DocumentStore.get_chunk_by_id "d1_chunk_0" c' = Some Fake.sky_chunk.
Proof.
  intros c.
  destruct (proj2 (stored_chunks_are_found [Fake.sky_chunk] pretty c))
    as (c' & Hstore & Hfound & _).
  - discriminate.
  - simpl. apply NoDup_singleton.
  - intros ch _. reflexivity.
  - exists c'. split; [exact Hstore|].
    apply (Hfound Fake.sky_chunk). left.
Defined.

(** ** The chunker: a chunk is closed only when it is full *)

Section ChunkClosed.
Import Py Models DocumentProcessor ChunkSpec ChunkClosing.
Variable config : Config.
Variable encoding : Tokenizer.
Variable utcnow : nat → datetime.
Variables (document_id filename : string).
Variable page_mapping : option (gmap string Z).

Local Abbreviation step :=
  (chunk_step config encoding utcnow document_id filename page_mapping).
Local Abbreviation inv := (chunk_inv config encoding).
Local Abbreviation count := (count_tokens encoding).
Local Abbreviation ok := (group_ok config encoding).
Local Abbreviation full := (closed_when_full config encoding).

Lemma closed_when_full_emit closed open s :
  full (closed ++ [open]) →
  CHUNK_SIZE config < accounted encoding open + count s →
  full ((closed ++ [open]) ++ [Group (seed_from config encoding open) [s]]).
Proof.
  intros Hfull Hsize i g g' Hg Hg'.
  destruct (decide (S i < length (closed ++ [open]))%nat) as [Hlt|Hge].
  - rewrite lookup_app_l in Hg by lia. rewrite lookup_app_l in Hg' by lia.
    by apply (Hfull i).
  - assert (S i = length (closed ++ [open])) as Hi.
    { apply lookup_lt_Some in Hg'. rewrite length_app in Hg'. simpl in Hg'. lia. }
    rewrite lookup_app_r in Hg' by lia.
    rewrite Hi, Nat.sub_diag in Hg'. simpl in Hg'. injection Hg' as <-.
    rewrite lookup_app_l in Hg by lia.
    rewrite length_app in Hi. simpl in Hi.
    rewrite lookup_app_r in Hg by lia.
    replace (i - length closed)%nat with 0%nat in Hg by lia.
    simpl in Hg. injection Hg as <-.
    by exists s.
Qed.

Lemma closed_when_full_append closed open s :
  full (closed ++ [open]) →
  (closed ≠ [] → members open ≠ []) →
  full (closed ++ [Group (seed open) (members open ++ [s])]).
Proof.
  intros Hfull Hne i g g' Hg Hg'.
  assert (S i ≤ length closed)%nat as Hi.
  { apply lookup_lt_Some in Hg'. rewrite length_app in Hg'. simpl in Hg'. lia. }
  rewrite lookup_app_l in Hg by lia.
  destruct (decide (S i < length closed)%nat) as [Hlt|Hge].
  - rewrite lookup_app_l in Hg' by lia.
    apply (Hfull i); by rewrite lookup_app_l by lia.
  - rewrite lookup_app_r in Hg' by lia.
    replace (S i - length closed)%nat with 0%nat in Hg' by lia.
    simpl in Hg'. injection Hg' as <-. simpl.
    destruct (Hfull i g open) as (s0 & Hhead & Hsize).
    { by rewrite lookup_app_l by lia. }
    { rewrite lookup_app_r by lia.
      by replace (S i - length closed)%nat with 0%nat by lia. }
    exists s0. split; [|done].
    destruct (members open); [done|]. done.
Qed.

(** One iteration keeps the invariant of the loop together with the fact
    that every closed group was full. *)
Lemma chunk_step_full p processed st closed open :
  inv processed st closed open → full (closed ++ [open]) →
  ∃ closed' open',
    inv (processed ++ (if decide (strip p = "") then [] else [strip p +:+ "."]))
      (step st p) closed' open'
    ∧ full (closed' ++ [open']).
Proof.
  intros [Hcover Htexts Hbuf Htok Hseeds Hclosed Hopen] Hfull.
  unfold chunk_step, truthy.
  destruct (decide (strip p = "")) as [Hblank|Hblank].
  { rewrite bool_decide_eq_true_2 by done. simpl.
    exists closed, open. rewrite app_nil_r. by split. }
  rewrite (bool_decide_eq_false_2 _ Hblank). simpl.
  set (s := strip p +:+ ".").
  destruct ((CHUNK_SIZE config <? current_tokens st + count s)
            && negb (bool_decide (current_chunk st = ""))) eqn:Hbranch.
  - apply andb_true_iff in Hbranch as [Hsize Hcur].
    apply Z.ltb_lt in Hsize.
    apply negb_true_iff, bool_decide_eq_false_1 in Hcur.
    destruct Hopen as [[-> ->]|Hok]; [by rewrite Hbuf in Hcur|].
    exists (closed ++ [open]), (Group (seed_from config encoding open) [s]).
    split; [|apply closed_when_full_emit; [done|by rewrite <- Htok]].
    split; simpl.
    + rewrite fmap_app, concat_app. simpl. rewrite app_nil_r.
      destruct open as [sd ms]. simpl in *. by rewrite Hcover.
    + rewrite !fmap_app, Htexts. simpl. by rewrite Hbuf.
    + by rewrite Hbuf.
    + unfold accounted. simpl. rewrite Hbuf. unfold seed_from. lia.
    + rewrite fmap_app, Hseeds, fmap_app. done.
    + apply Forall_app. split; [done|]. by apply Forall_singleton.
    + right. repeat split; simpl; [done| |by right].
      apply Forall_singleton, sentence_nonblank.
  - exists closed, (Group (seed open) (members open ++ [s])).
    assert (seed open = None ∨ members open ≠ []) as Hsd.
    { destruct Hopen as [[-> _]|(Hne & _)]; [by left|by right]. }
    split.
    2:{ apply closed_when_full_append; [done|].
        intros Hc. destruct Hopen as [[_ ->]|(Hne & _)]; done. }
    split; simpl.
    + by rewrite app_assoc, Hcover.
    + done.
    + rewrite buffer_of_snoc, Hbuf. by destruct open.
    + rewrite accounted_snoc, Htok by done. by destruct open.
    + rewrite fmap_app in Hseeds |- *. done.
    + done.
    + right. split; [by destruct (members open)|]. split.
      * apply Forall_app. split; [|apply Forall_singleton, sentence_nonblank].
        destruct Hopen as [[-> _]|(_ & Hall & _)]; [by constructor|done].
      * destruct Hopen as [[-> _]|Hok]; [by right|].
        left. rewrite accounted_snoc by done.
        replace (Group (seed open) (members open)) with open by (by destruct open).
        rewrite <- Htok.
        apply andb_false_iff in Hbranch as [Hsize|Hcur].
        -- apply Z.ltb_ge in Hsize. done.
        -- apply negb_false_iff, bool_decide_eq_true_1 in Hcur.
           apply (group_ok_nonblank config encoding), all_space_nonempty in Hok.
           by rewrite Hbuf in Hcur.
Qed.

Lemma chunk_loop_full pieces processed st closed open :
  inv processed st closed open → full (closed ++ [open]) →
  ∃ closed' open',
    inv (processed ++ sentences_of_pieces pieces) (fold_left step pieces st)
      closed' open'
    ∧ full (closed' ++ [open']).
Proof.
  revert processed st closed open.
  induction pieces as [|p ps IH]; intros processed st closed open Hinv Hfull; simpl.
  - exists closed, open. by rewrite app_nil_r.
  - destruct (chunk_step_full p _ _ _ _ Hinv Hfull) as (closed1 & open1 & Hinv1 & Hfull1).
    destruct (IH _ _ _ _ Hinv1 Hfull1) as (closed2 & open2 & Hinv2 & Hfull2).
    exists closed2, open2.
    by rewrite sentences_of_pieces_cons, app_assoc.
Qed.


End ChunkClosed.



(** Two turns stored concurrently for a user who has one turn already, the
    second call first. *)
Lemma concurrent_pushes_both_persist_witness :
  let turn := λ q, {| Models.question := q; Models.turn_answer := "";
                      Models.turn_references := []; Models.timestamp := 0 |} in
  let s := [Database.upserted "u1" [turn "q1"] 0] in
  Database.stored_history "u1"
    (Database.interleave [false; true]
       (Database.Running (Database.store_conversation_turn "u1" (turn "q2") 1))
       (Database.Running (Database.store_conversation_turn "u1" (turn "q3") 2)) s)
  = [turn "q1"; turn "q3"; turn "q2"].
Proof.
  intros turn s.
  destruct (concurrent_pushes_both_persist [false; true] "u1" (turn "q2") (turn "q3")
              1 2 s ltac:(by eexists)) as [[H|H] _]; [by vm_compute in H|exact H].
Defined.
